(** * Callbacks of the Telegram assistant agent

    A shallow embedding of
    [agent/telegram-assistant/shared_libraries/callbacks.py]:
    the request throttle [rate_limit_callback], the customer-id validator
    [validate_customer_id], the argument normaliser [lowercase_value], the
    pre-tool guard [before_tool], the post-tool hook [after_tool] and the
    session-metadata extractor [before_agent], followed by the properties
    of these functions. *)

From Stdlib Require Import ZArith QArith String Ascii List Lia Lqa.
From stdpp Require Import base option gmap strings pretty.

Set Warnings "-register-all".
Local Open Scope Z_scope.

(** ** Python values *)

(** The values the callbacks handle: [None], booleans, integers, floats,
    strings, lists, tuples, sets and dictionaries with string keys (tool
    arguments, decoded JSON, session state entries).  A float is modelled by
    the rational it denotes; rounding, NaN and the infinities are outside
    the model.  A dictionary is the list of its items in insertion order, a
    set the list of its elements in iteration order. *)
Inductive pyval : Type :=
| PNone
| PBool (b : bool)
| PInt (n : Z)
| PFloat (q : Q)
| PStr (s : string)
| PList (l : list pyval)
| PTuple (l : list pyval)
| PSet (l : list pyval)
| PDict (items : list (string * pyval)).

(** Exceptions that the modelled code can raise. *)
Inductive exn : Type :=
| KeyError
| TypeError
| AttributeError
| JSONDecodeError
| OtherError.

Inductive outcome (A : Type) : Type :=
| Ok (a : A)
| Raise (e : exn).
Arguments Ok {A} a.
Arguments Raise {A} e.

(** *** Numbers *)

(** Python's numeric tower restricted to [bool], [int] and [float]. *)
Inductive number : Type :=
| NInt (n : Z)
| NFloat (q : Q).

Definition as_number (v : pyval) : option number :=
  match v with
  | PBool b => Some (NInt (if b then 1 else 0))
  | PInt n => Some (NInt n)
  | PFloat q => Some (NFloat q)
  | _ => None
  end.

Definition of_number (x : number) : pyval :=
  match x with
  | NInt n => PInt n
  | NFloat q => PFloat q
  end.

Definition num_Q (x : number) : Q :=
  match x with
  | NInt n => inject_Z n
  | NFloat q => q
  end.

Definition num_add (x y : number) : number :=
  match x, y with
  | NInt a, NInt b => NInt (a + b)
  | _, _ => NFloat (num_Q x + num_Q y)
  end.

Definition num_sub (x y : number) : number :=
  match x, y with
  | NInt a, NInt b => NInt (a - b)
  | _, _ => NFloat (num_Q x - num_Q y)
  end.

Definition num_eqb (x y : number) : bool := Qeq_bool (num_Q x) (num_Q y).
Definition num_leb (x y : number) : bool := Qle_bool (num_Q x) (num_Q y).
Definition num_ltb (x y : number) : bool := negb (Qle_bool (num_Q y) (num_Q x)).

(** [a + b], [a - b], [a <= b] and [a > b] where one operand is known to be
    a number: any non-numeric other operand raises [TypeError]. *)
Definition py_add (a b : pyval) : outcome pyval :=
  match as_number a, as_number b with
  | Some x, Some y => Ok (of_number (num_add x y))
  | _, _ => Raise TypeError
  end.

Definition py_sub (a b : pyval) : outcome pyval :=
  match as_number a, as_number b with
  | Some x, Some y => Ok (of_number (num_sub x y))
  | _, _ => Raise TypeError
  end.

Definition py_le (a b : pyval) : outcome bool :=
  match as_number a, as_number b with
  | Some x, Some y => Ok (num_leb x y)
  | _, _ => Raise TypeError
  end.

Definition py_gt (a b : pyval) : outcome bool :=
  match as_number a, as_number b with
  | Some x, Some y => Ok (num_ltb y x)
  | _, _ => Raise TypeError
  end.

(** *** Dictionaries *)

Fixpoint dict_get {A : Type} (k : string) (d : list (string * A)) : option A :=
  match d with
  | nil => None
  | (k', v) :: d' => if String.eqb k k' then Some v else dict_get k d'
  end.

(** [k in d] *)
Definition dict_contains {A : Type} (k : string) (d : list (string * A)) : bool :=
  match dict_get k d with
  | Some _ => true
  | None => false
  end.

(** [d[k] = v] on a dictionary: an existing key keeps its position. *)
Fixpoint dict_set {A : Type} (k : string) (v : A) (d : list (string * A))
  : list (string * A) :=
  match d with
  | nil => (k, v) :: nil
  | (k', v') :: d' =>
      if String.eqb k k' then (k, v) :: d' else (k', v') :: dict_set k v d'
  end.

(** [dict(pairs)]: the pairs are inserted from left to right. *)
Definition py_dict {A : Type} (pairs : list (string * A)) : list (string * A) :=
  fold_left (fun d kv => dict_set (fst kv) (snd kv) d) pairs nil.

(** [d.get(k)] and [d.get(k, None)] *)
Definition py_dict_get (k : string) (d : list (string * pyval)) : pyval :=
  match dict_get k d with
  | Some v => v
  | None => PNone
  end.

(** *** Equality and truth value *)

Section ListEq.
Context {A : Type} (eqA : A -> A -> bool).

Fixpoint list_eqb (l1 l2 : list A) : bool :=
  match l1, l2 with
  | nil, nil => true
  | x :: l1', y :: l2' => eqA x y && list_eqb l1' l2'
  | _, _ => false
  end.
End ListEq.

(** [a == b].  Numbers compare by value across [bool], [int] and [float];
    lists and tuples element by element; sets by mutual inclusion;
    dictionaries by equal size and equal values at every key. *)
Fixpoint py_eq (a b : pyval) {struct a} : bool :=
  match a, b with
  | PNone, PNone => true
  | PStr s, PStr t => String.eqb s t
  | PList l, PList m => list_eqb py_eq l m
  | PTuple l, PTuple m => list_eqb py_eq l m
  | PSet l, PSet m =>
      forallb (fun x => existsb (fun y => py_eq x y) m) l
      && Nat.eqb (length l) (length m)
  | PDict d, PDict e =>
      forallb (fun kv =>
                 match dict_get (fst kv) e with
                 | Some w => py_eq (snd kv) w
                 | None => false
                 end) d
      && Nat.eqb (length d) (length e)
  | _, _ =>
      match as_number a, as_number b with
      | Some x, Some y => num_eqb x y
      | _, _ => false
      end
  end.

(** [bool(v)] *)
Definition py_truthy (v : pyval) : bool :=
  match v with
  | PNone => false
  | PBool b => b
  | PInt n => negb (n =? 0)
  | PFloat q => negb (Qeq_bool q 0)
  | PStr s => negb (String.eqb s EmptyString)
  | PList l | PTuple l | PSet l => negb (Nat.eqb (length l) 0)
  | PDict d => negb (Nat.eqb (length d) 0)
  end.

Definition is_dict (v : pyval) : bool :=
  match v with
  | PDict _ => true
  | _ => false
  end.

(** *** Strings *)

(** [str.lower] on the ASCII letters; other characters are kept. *)
Definition lower_char (c : ascii) : ascii :=
  let n := nat_of_ascii c in
  if (Nat.leb 65 n && Nat.leb n 90)%bool then ascii_of_nat (n + 32) else c.

Fixpoint lower (s : string) : string :=
  match s with
  | EmptyString => EmptyString
  | String c s' => String (lower_char c) (lower s')
  end.

(** *** Sets *)

Definition set_add (x : pyval) (s : list pyval) : list pyval :=
  if existsb (fun y => py_eq y x) s then s else s ++ [x].

(** [set(elements)]: equal elements are kept once. *)
Definition py_set (elements : list pyval) : list pyval :=
  fold_left (fun s x => set_add x s) elements [].

(** ** [lowercase_value] *)

Fixpoint lowercase_value (value : pyval) : pyval :=
  match value with
  | PDict items =>
      PDict (py_dict (map (fun '(k, v) => (k, lowercase_value v)) items))
  | PStr s => PStr (lower s)
  | PList l => PList (map lowercase_value l)
  | PSet l => PSet (py_set (map lowercase_value l))
  | PTuple l => PTuple (map lowercase_value l)
  | _ => value
  end.

(** ** The callback world *)

(** What a callback can read and change: the session state, a mapping from
    string keys to values owned by the host, and the time the thread has
    spent in [time.sleep], one entry per call. Log output is not modelled. *)
Record World : Type := mkWorld {
  state : gmap string pyval;
  slept : list Q
}.

(** A computation runs in a world and ends with a value or an exception;
    the changes made before an exception stay. *)
Definition M (A : Type) : Type := World -> outcome A * World.

Definition ret {A : Type} (a : A) : M A := fun w => (Ok a, w).

Definition bind {A B : Type} (m : M A) (f : A -> M B) : M B :=
  fun w =>
    match m w with
    | (Ok a, w') => f a w'
    | (Raise e, w') => (Raise e, w')
    end.

Definition raise {A : Type} (e : exn) : M A := fun w => (Raise e, w).

Definition lift {A : Type} (o : outcome A) : M A := fun w => (o, w).

(** [try: body except <caught>: handler] *)
Definition try_except {A : Type} (body : M A) (caught : exn -> bool)
  (handler : exn -> M A) : M A :=
  fun w =>
    match body w with
    | (Raise e, w') => if caught e then handler e w' else (Raise e, w')
    | r => r
    end.

#[global] Instance M_ret : MRet M := @ret.
#[global] Instance M_bind : MBind M := fun A B f m => bind m f.

(** [key in state], [state[key]], [state[key] = v] and [time.sleep(d)]. *)
Definition state_contains (key : string) : M bool :=
  fun w => (Ok (bool_decide (is_Some (state w !! key))), w).

Definition state_getitem (key : string) : M pyval :=
  fun w =>
    match state w !! key with
    | Some v => (Ok v, w)
    | None => (Raise KeyError, w)
    end.

Definition state_setitem (key : string) (v : pyval) : M unit :=
  fun w => (Ok tt, mkWorld (<[key := v]> (state w)) (slept w)).

Definition time_sleep (d : Q) : M unit :=
  fun w => (Ok tt, mkWorld (state w) (slept w ++ [d])).

(** ** [rate_limit_callback] *)

Definition RATE_LIMIT_SECS : Z := 60.
Definition RPM_QUOTA : Z := 10.

(** The outgoing request: contents, each a sequence of parts, each part with
    a [text] that may be [None]. *)
Record Part : Type := mkPart { text : option string }.
Definition Content : Type := list Part.
Definition LlmRequest : Type := list Content.

(** The loop over [llm_request.contents]: an empty text becomes one space.
    The request object is changed in place; the function gives its
    contents after the loop. *)
Definition fill_empty_text (part : Part) : Part :=
  match text part with
  | Some EmptyString => mkPart (Some " ")
  | _ => part
  end.

Definition fill_empty_parts (llm_request : LlmRequest) : LlmRequest :=
  map (map fill_empty_text) llm_request.

(** [time.sleep(delay)] for a value [delay]. *)
Definition py_sleep (delay : pyval) : M unit :=
  match as_number delay with
  | Some d => time_sleep (num_Q d)
  | None => raise TypeError
  end.

(** [now] is the reading of [time.time()] at the start of the call.  The
    result is the request after the in-place rewrite of its parts. *)
Definition rate_limit_callback (now : Q) (llm_request : LlmRequest)
  : M LlmRequest :=
  let llm_request := fill_empty_parts llm_request in
  started ← state_contains "timer_start";
  if negb started then
    state_setitem "timer_start" (PFloat now);;
    state_setitem "request_count" (PInt 1);;
    mret llm_request
  else
    count ← state_getitem "request_count";
    request_count ← lift (py_add count (PInt 1));
    timer_start ← state_getitem "timer_start";
    elapsed_secs ← lift (py_sub (PFloat now) timer_start);
    over ← lift (py_gt request_count (PInt RPM_QUOTA));
    if (over : bool) then
      remaining ← lift (py_sub (PInt RATE_LIMIT_SECS) elapsed_secs);
      delay ← lift (py_add remaining (PInt 1));
      positive ← lift (py_gt delay (PInt 0));
      (if (positive : bool) then py_sleep delay else mret tt);;
      state_setitem "timer_start" (PFloat now);;
      state_setitem "request_count" (PInt 1);;
      mret llm_request
    else
      state_setitem "request_count" request_count;;
      mret llm_request.

(** ** [validate_customer_id] and [before_tool] *)

Section Guard.

(** [json.loads] on a string: the decoded value, or [None] for a
    [JSONDecodeError]. *)
Variable json_loads : string -> option pyval.

(** [repr] of floats and containers, which [str] falls back to. *)
Variable py_repr : pyval -> string.

(** [str(v)], as an f-string renders [{v}]. *)
Definition py_str (v : pyval) : string :=
  match v with
  | PNone => "None"
  | PBool true => "True"
  | PBool false => "False"
  | PInt n => pretty n
  | PStr s => s
  | _ => py_repr v
  end.

(** [json.loads(v)]: only a string is accepted. *)
Definition py_json_loads (v : pyval) : M pyval :=
  match v with
  | PStr s =>
      match json_loads s with
      | Some data => mret data
      | None => raise JSONDecodeError
      end
  | _ => raise TypeError
  end.

(** [obj.get(key)]: only a dictionary has the method. *)
Definition py_get (obj : pyval) (key : string) : M pyval :=
  match obj with
  | PDict d => mret (py_dict_get key d)
  | _ => raise AttributeError
  end.

Definition no_profile_msg : string :=
  "No customer profile selected. Please select a profile.".
Definition unparsed_msg : string :=
  "Customer profile couldn't be parsed. Please reload the customer data.".
Definition mismatch_msg (customer_id stored_customer_id : pyval) : string :=
  "You cannot use the tool with customer_id " +:+ py_str customer_id
  +:+ ", only for " +:+ py_str stored_customer_id +:+ ".".

(** The session state argument is the state of the world. *)
Definition validate_customer_id (customer_id : pyval) : M (bool * string) :=
  bound ← state_contains "customer_profile";
  if negb bound then mret (false, no_profile_msg)
  else
    try_except
      (profile ← state_getitem "customer_profile";
       customer_data ← py_json_loads profile;
       stored_customer_id ← py_get customer_data "customer_id";
       if py_eq customer_id stored_customer_id then mret (true, EmptyString)
       else mret (false, mismatch_msg customer_id stored_customer_id))
      (fun e => match e with
                | JSONDecodeError | KeyError => true
                | _ => false
                end)
      (fun _ => mret (false, unparsed_msg)).

Definition approval_response : pyval :=
  PDict [("status", PStr "approved");
         ("message", PStr "You can approve this discount; no manager needed.")].

Definition cart_response : pyval :=
  PDict [("result", PStr "I have added and removed the requested items.")].

(** [v is True] *)
Definition is_True (v : pyval) : bool :=
  match v with
  | PBool true => true
  | _ => false
  end.

(** What a call of [before_tool] leaves: the value it returns and the
    contents of the [args] object, which the caller passes on to the tool. *)
Record GuardResult : Type := mkGuardResult {
  returned : pyval;
  args_after : list (string * pyval)
}.

Definition before_tool (tool_name : string) (args : list (string * pyval))
  : M GuardResult :=
  (* the lowercased copy is built and dropped; [args] is not written *)
  let _ := lowercase_value (PDict args) in
  let done (r : pyval) : M GuardResult := mret (mkGuardResult r args) in
  let cart_check : M GuardResult :=
    if String.eqb tool_name "modify_cart" then
      if is_True (py_dict_get "items_added" args)
         && is_True (py_dict_get "items_removed" args)
      then done cart_response
      else done PNone
    else done PNone in
  let approval_check : M GuardResult :=
    if String.eqb tool_name "sync_ask_for_approval" then
      let amount := py_dict_get "value" args in
      approved ← (if py_truthy amount then lift (py_le amount (PInt 10))
                  else mret false);
      if (approved : bool) then done approval_response else cart_check
    else cart_check in
  match dict_get "customer_id" args with
  | Some customer_id =>
      '(valid, err) ← validate_customer_id customer_id;
      if (valid : bool) then approval_check else done (PStr err)
  | None => approval_check
  end.

(** The ways a call can go. *)
Inductive validate_case (customer_id : pyval) (w : World)
  : outcome (bool * string) -> Prop :=
| case_unbound :
    state w !! "customer_profile" = None ->
    validate_case customer_id w (Ok (false, no_profile_msg))
| case_not_string profile :
    state w !! "customer_profile" = Some profile ->
    (forall s, profile <> PStr s) ->
    validate_case customer_id w (Raise TypeError)
| case_undecodable s :
    state w !! "customer_profile" = Some (PStr s) ->
    json_loads s = None ->
    validate_case customer_id w (Ok (false, unparsed_msg))
| case_not_object s data :
    state w !! "customer_profile" = Some (PStr s) ->
    json_loads s = Some data ->
    is_dict data = false ->
    validate_case customer_id w (Raise AttributeError)
| case_match s d :
    state w !! "customer_profile" = Some (PStr s) ->
    json_loads s = Some (PDict d) ->
    py_eq customer_id (py_dict_get "customer_id" d) = true ->
    validate_case customer_id w (Ok (true, EmptyString))
| case_mismatch s d :
    state w !! "customer_profile" = Some (PStr s) ->
    json_loads s = Some (PDict d) ->
    py_eq customer_id (py_dict_get "customer_id" d) = false ->
    validate_case customer_id w
      (Ok (false, mismatch_msg customer_id
                    (py_dict_get "customer_id" d))).

(** The arguments carry no [customer_id], or the one they carry is
    accepted by the validator. *)
Definition customer_check_passes (args : list (string * pyval)) (w : World)
  : Prop :=
  match dict_get "customer_id" args with
  | None => True
  | Some customer_id => fst (validate_customer_id customer_id w) = Ok (true, EmptyString)
  end.

End Guard.

(** ** [before_agent] *)

(** The run configuration, as far as [before_agent] looks at it: its
    [inputs] and [extra_kwargs] attributes ([None] when the attribute does not
    exist) and the outcome of [model_dump(exclude_none=True)]. *)
Record RunConfig : Type := mkRunConfig {
  rc_inputs : option pyval;
  rc_extra_kwargs : option pyval;
  rc_model_dump : outcome pyval
}.

(** The invocation context: its [inputs] attribute, its [run_config]
    ([None] when absent or null) and the outcome of its [model_dump]. *)
Record InvocationContext : Type := mkInvocationContext {
  inv_inputs : option pyval;
  inv_run_config : option RunConfig;
  inv_model_dump : outcome pyval
}.

(** The callback context: [_invocation_context] is [None] when the attribute
    is missing or null; its [state] is the state of the world. *)
Record CallbackContext : Type := mkCallbackContext {
  _invocation_context : option InvocationContext
}.

(** [getattr(obj, name, None)] on an attribute that may not exist. *)
Definition getattr_or_None (attr : option pyval) : pyval :=
  match attr with
  | Some v => v
  | None => PNone
  end.

Definition is_None (v : pyval) : bool :=
  match v with
  | PNone => true
  | _ => false
  end.

(** Step 1: [raw_inputs.get("sessionMetadata")] when [inv.inputs] is a
    dictionary, [None] otherwise. *)
Definition direct_session_meta (inv : InvocationContext) : pyval :=
  match getattr_or_None (inv_inputs inv) with
  | PDict raw_inputs => py_dict_get "sessionMetadata" raw_inputs
  | _ => PNone
  end.

(** Step 2, the list [possible_sources]. *)
Definition possible_sources (inv : InvocationContext)
  : list (list (string * pyval)) :=
  match inv_run_config inv with
  | None => []
  | Some run_config =>
      let from_attr (attr : option pyval) :=
        match getattr_or_None attr with
        | PDict d => [d]
        | _ => []
        end in
      from_attr (rc_inputs run_config)
      ++ from_attr (rc_extra_kwargs run_config)
      ++ match rc_model_dump run_config with
         | Ok (PDict rc_dump) => [rc_dump]
         | _ => []
         end
  end.

(** Step 2, the loop over the sources: the first source with a top-level
    or nested [sessionMetadata] key ends the loop. *)
Fixpoint scan_sources (sources : list (list (string * pyval))) : pyval :=
  match sources with
  | [] => PNone
  | source :: rest =>
      match dict_get "sessionMetadata" source with
      | Some v => v
      | None =>
          match py_dict_get "inputs" source with
          | PDict inputs_candidate =>
              match dict_get "sessionMetadata" inputs_candidate with
              | Some v => v
              | None => scan_sources rest
              end
          | _ => scan_sources rest
          end
      end
  end.

Definition find_session_meta (inv : InvocationContext) : pyval :=
  let session_meta := direct_session_meta inv in
  if is_None session_meta then scan_sources (possible_sources inv)
  else session_meta.

(** The [else] branch: the dumps are computed for the log only.  The text
    of the exception, which the source appends to the error entry, is left
    out. *)
Definition dump_for_log (inv : InvocationContext) : M (pyval * pyval) :=
  try_except
    (dump ← lift (inv_model_dump inv);
     let run_config_dump :=
       match dump with
       | PDict d => py_dict_get "run_config" d
       | _ => PNone
       end in
     mret (dump, run_config_dump))
    (fun _ => true)
    (fun _ => mret (PDict [("error", PStr "failed to dump invocation context")],
                    PNone)).

Definition before_agent (callback_context : CallbackContext) : M unit :=
  match _invocation_context callback_context with
  | None => mret tt
  | Some inv =>
      let session_meta := find_session_meta inv in
      if py_truthy session_meta then
        state_setitem "session_metadata" session_meta
      else
        dump_for_log inv;; mret tt
  end.

(** ** [after_tool] *)

(** [tool_response and tool_response.get('status') == expected] *)
Definition response_has_status (tool_response : pyval) (expected : string)
  : M bool :=
  if py_truthy tool_response then
    status ← py_get tool_response "status";
    mret (py_eq status (PStr expected))
  else mret false.

(** Both branches only write to the log; the conditions are still
    evaluated. *)
Definition after_tool (tool_name : string) (args : list (string * pyval))
  (tool_response : pyval) : M pyval :=
  (if String.eqb tool_name "sync_ask_for_approval"
   then response_has_status tool_response "approved"
   else mret false);;
  (if String.eqb tool_name "approve_discount"
   then response_has_status tool_response "ok"
   else mret false);;
  mret PNone.

(** ** A JSON decoder and a [repr] for the examples

    The properties below hold for every decoder and every [repr].  The
    examples run with the following two.  [json_decode] follows
    [json.loads] on texts made of objects, arrays, strings without escapes,
    integers, [true], [false] and [null]; it rejects the texts with
    escapes, fractions, exponents, [NaN] or [Infinity], which the examples
    do not use. *)
Module Json.

Definition dquote : ascii := "034"%char.

Definition is_ws (c : ascii) : bool :=
  let n := nat_of_ascii c in
  (Nat.eqb n 32 || Nat.eqb n 9 || Nat.eqb n 10 || Nat.eqb n 13)%bool.

Fixpoint skip_ws (s : string) : string :=
  match s with
  | String c s' => if is_ws c then skip_ws s' else s
  | EmptyString => s
  end.

Fixpoint strip_prefix (p s : string) : option string :=
  match p, s with
  | EmptyString, _ => Some s
  | String a p', String b s' =>
      if Ascii.eqb a b then strip_prefix p' s' else None
  | _, _ => None
  end.

(** The characters of a string up to the closing quote. *)
Fixpoint scan_string (s : string) : option (string * string) :=
  match s with
  | EmptyString => None
  | String c s' =>
      if Ascii.eqb c dquote then Some (EmptyString, s')
      else if (Ascii.eqb c "\"%char || Nat.ltb (nat_of_ascii c) 32)%bool
      then None
      else match scan_string s' with
           | Some (t, r) => Some (String c t, r)
           | None => None
           end
  end.

Definition digit_of (c : ascii) : option Z :=
  let n := nat_of_ascii c in
  if (Nat.leb 48 n && Nat.leb n 57)%bool then Some (Z.of_nat (n - 48)) else None.

Fixpoint scan_digits (acc : Z) (s : string) : Z * string :=
  match s with
  | String c s' =>
      match digit_of c with
      | Some d => scan_digits (10 * acc + d) s'
      | None => (acc, s)
      end
  | EmptyString => (acc, s)
  end.

(** [0] or a digit sequence that starts with a non-zero digit. *)
Definition scan_nat (s : string) : option (Z * string) :=
  match s with
  | String c s' =>
      match digit_of c with
      | Some 0 => Some (0, s')
      | Some d => Some (scan_digits d s')
      | None => None
      end
  | EmptyString => None
  end.

Fixpoint parse_value (fuel : nat) (s : string) : option (pyval * string) :=
  match fuel with
  | O => None
  | S fuel =>
      match s with
      | EmptyString => None
      | String c rest =>
          if Ascii.eqb c dquote then
            match scan_string rest with
            | Some (t, r) => Some (PStr t, r)
            | None => None
            end
          else if Ascii.eqb c "["%char then
            match skip_ws rest with
            | String "]"%char r => Some (PList [], r)
            | s1 =>
                (fix elements (n : nat) (s : string) (acc : list pyval) :=
                   match n with
                   | O => None
                   | S n =>
                       match parse_value fuel s with
                       | None => None
                       | Some (v, r) =>
                           match skip_ws r with
                           | String ","%char r' =>
                               elements n (skip_ws r') (acc ++ [v])
                           | String "]"%char r' => Some (PList (acc ++ [v]), r')
                           | _ => None
                           end
                       end
                   end) fuel s1 []
            end
          else if Ascii.eqb c "{"%char then
            match skip_ws rest with
            | String "}"%char r => Some (PDict [], r)
            | s1 =>
                (fix members (n : nat) (s : string)
                     (acc : list (string * pyval)) :=
                   match n with
                   | O => None
                   | S n =>
                       match s with
                       | String q s2 =>
                           if Ascii.eqb q dquote then
                             match scan_string s2 with
                             | None => None
                             | Some (key, r) =>
                                 match skip_ws r with
                                 | String ":"%char r1 =>
                                     match parse_value fuel (skip_ws r1) with
                                     | None => None
                                     | Some (v, r2) =>
                                         match skip_ws r2 with
                                         | String ","%char r' =>
                                             members n (skip_ws r')
                                               (acc ++ [(key, v)])
                                         | String "}"%char r' =>
                                             Some (PDict (py_dict (acc ++ [(key, v)])), r')
                                         | _ => None
                                         end
                                     end
                                 | _ => None
                                 end
                             end
                           else None
                       | EmptyString => None
                       end
                   end) fuel s1 []
            end
          else if Ascii.eqb c "-"%char then
            match scan_nat rest with
            | Some (n, r) => Some (PInt (- n), r)
            | None => None
            end
          else
            match scan_nat s with
            | Some (n, r) => Some (PInt n, r)
            | None =>
                match strip_prefix "null" s with
                | Some r => Some (PNone, r)
                | None =>
                    match strip_prefix "true" s with
                    | Some r => Some (PBool true, r)
                    | None =>
                        match strip_prefix "false" s with
                        | Some r => Some (PBool false, r)
                        | None => None
                        end
                    end
                end
            end
      end
  end.

Definition json_decode (s : string) : option pyval :=
  match parse_value (S (String.length s)) (skip_ws s) with
  | Some (v, r) =>
      match skip_ws r with
      | EmptyString => Some v
      | _ => None
      end
  | None => None
  end.

(** A text in double quotes. *)
Definition quoted (s : string) : string :=
  String dquote (s +:+ String dquote EmptyString).

Definition join (sep : string) (parts : list string) : string :=
  match parts with
  | [] => EmptyString
  | p :: ps => fold_left (fun acc x => acc +:+ sep +:+ x) ps p
  end.

(** [repr] on containers of [None], booleans, integers and strings
    without quotes or escapes; a float is shown as its fraction. *)
Fixpoint repr (v : pyval) : string :=
  match v with
  | PNone => "None"
  | PBool true => "True"
  | PBool false => "False"
  | PInt n => pretty n
  | PFloat q => pretty (Qnum q) +:+ "/" +:+ pretty (Zpos (Qden q))
  | PStr s => "'" +:+ s +:+ "'"
  | PList l => "[" +:+ join ", " (map repr l) +:+ "]"
  | PTuple [x] => "(" +:+ repr x +:+ ",)"
  | PTuple l => "(" +:+ join ", " (map repr l) +:+ ")"
  | PSet [] => "set()"
  | PSet l => "{" +:+ join ", " (map repr l) +:+ "}"
  | PDict d =>
      "{" +:+ join ", " (map (fun '(k, x) => "'" +:+ k +:+ "': " +:+ repr x) d)
      +:+ "}"
  end.

End Json.

(** * The vocabulary of the properties *)

(** ** The request throttle *)

(** The window of a session that has been through a call: a number under
    [timer_start] and a number under [request_count]. *)
Definition window (w : World) (timer_start request_count : number) : Prop :=
  (exists t, state w !! "timer_start" = Some t /\ as_number t = Some timer_start)
  /\ (exists c, state w !! "request_count" = Some c
                /\ as_number c = Some request_count).

Definition incremented (request_count : number) : number :=
  num_add request_count (NInt 1).

Definition over_quota (request_count : number) : bool :=
  negb (num_leb (incremented request_count) (NInt RPM_QUOTA)).

Definition reset_window (now : Q) (w : World) : gmap string pyval :=
  <["request_count" := PInt 1]> (<["timer_start" := PFloat now]> (state w)).

(** A fresh session, and a session whose window started at time 100 and
    has counted [request_count] requests. *)
Definition fresh_world : World := mkWorld ∅ [].

Definition session_world (request_count : Z) : World :=
  mkWorld (<["request_count" := PInt request_count]>
             (<["timer_start" := PFloat 100]> ∅)) [].

(** ** The argument normaliser *)

(** A value as Python builds it: the keys of a dictionary are distinct, at
    every depth. *)
Fixpoint distinct (keys : list string) : bool :=
  match keys with
  | [] => true
  | k :: keys' => negb (existsb (String.eqb k) keys') && distinct keys'
  end.

Fixpoint well_formed (v : pyval) : bool :=
  match v with
  | PList l | PTuple l | PSet l => forallb well_formed l
  | PDict d =>
      distinct (map fst d) && forallb (fun kv => well_formed (snd kv)) d
  | _ => true
  end.

(** What the specification asks of the result: keys are kept, strings are
    lowercased at every depth, a list, tuple or set is rebuilt as a list,
    tuple or set of the processed elements, and any other value is returned
    as it is. *)
Inductive lowered : pyval -> pyval -> Prop :=
| lowered_None : lowered PNone PNone
| lowered_Bool b : lowered (PBool b) (PBool b)
| lowered_Int n : lowered (PInt n) (PInt n)
| lowered_Float q : lowered (PFloat q) (PFloat q)
| lowered_Str s : lowered (PStr s) (PStr (lower s))
| lowered_List l l' :
    Forall2 lowered l l' -> lowered (PList l) (PList l')
| lowered_Tuple l l' :
    Forall2 lowered l l' -> lowered (PTuple l) (PTuple l')
| lowered_Set l l' :
    Forall2 lowered l l' -> lowered (PSet l) (PSet (py_set l'))
| lowered_Dict d d' :
    Forall2 (fun kv kv' => fst kv = fst kv' /\ lowered (snd kv) (snd kv')) d d' ->
    lowered (PDict d) (PDict d').

(** A value with every kind of container, and its lowercased form. *)
Definition sample_args : pyval :=
  PDict [("Name", PStr "JohnDoe");
         ("tags", PList [PStr "A"; PStr "B"]);
         ("codes", PSet [PStr "X"; PStr "x"; PInt 7]);
         ("pair", PTuple [PStr "Left"; PNone; PBool true]);
         ("nested", PDict [("City", PStr "PARIS"); ("zip", PInt 75001)])].

(** [mentions sub s]: the text [sub] occurs in [s]. *)
Definition mentions (sub s : string) : Prop :=
  exists before after, s = before +:+ sub +:+ after.

(** ** The validator and the guard *)

(** A session whose state holds [profile] under [customer_profile]. *)
Definition profile_world (profile : pyval) : World :=
  mkWorld {[ "customer_profile" := profile ]} [].

(** The JSON text of an object with the one member [customer_id]. *)
Definition profile_of (customer_id : string) : string :=
  "{" +:+ Json.quoted "customer_id" +:+ ": " +:+ Json.quoted customer_id +:+ "}".

(** ** The session-metadata extractor *)

(** [sessionMetadata] is absent from a source: neither a top-level key nor
    a key of a nested [inputs] dictionary. *)
Definition absent_in (source : list (string * pyval)) : bool :=
  negb (dict_contains "sessionMetadata" source)
  && match py_dict_get "inputs" source with
     | PDict inputs_candidate =>
         negb (dict_contains "sessionMetadata" inputs_candidate)
     | _ => true
     end.

Definition absent_in_value (v : pyval) : bool :=
  match v with
  | PDict source => absent_in source
  | _ => true
  end.

(** The places of the run configuration where the metadata is looked for:
    its [inputs], its [extra_kwargs] and its dump, when there is one. *)
Definition run_config_locations (inv : InvocationContext) : list pyval :=
  match inv_run_config inv with
  | None => []
  | Some run_config =>
      [getattr_or_None (rc_inputs run_config);
       getattr_or_None (rc_extra_kwargs run_config)]
      ++ match rc_model_dump run_config with
         | Ok rc_dump => [rc_dump]
         | Raise _ => []
         end
  end.

(** [sessionMetadata] is absent from every lookup location: the direct
    [inputs] mapping has no such key, and no location of the run
    configuration has it. *)
Definition metadata_absent (inv : InvocationContext) : bool :=
  match getattr_or_None (inv_inputs inv) with
  | PDict raw_inputs => negb (dict_contains "sessionMetadata" raw_inputs)
  | _ => true
  end
  && forallb absent_in_value (run_config_locations inv).

(** An invocation context with the given direct [inputs], and one with a
    run configuration next to them. *)
Definition inv_with_inputs (raw_inputs : list (string * pyval))
  : InvocationContext :=
  mkInvocationContext (Some (PDict raw_inputs)) None (Ok (PDict [])).

Definition inv_with_run_config (raw_inputs extra_kwargs : list (string * pyval))
  : InvocationContext :=
  mkInvocationContext (Some (PDict raw_inputs))
    (Some (mkRunConfig None (Some (PDict extra_kwargs)) (Raise OtherError)))
    (Raise OtherError).

(** ** Sessions, requests and sources *)

(** The host calling the throttle once per request, in turn. *)
Fixpoint rate_limit_calls (calls : list (Q * LlmRequest)) : M unit :=
  match calls with
  | [] => mret tt
  | (now, llm_request) :: rest =>
      rate_limit_callback now llm_request;; rate_limit_calls rest
  end.

(** A window as the throttle itself writes it: a float under
    [timer_start] and an integer under [request_count]. *)
Definition int_window (w : World) (timer_start : Q) (request_count : Z) : Prop :=
  state w !! "timer_start" = Some (PFloat timer_start)
  /\ state w !! "request_count" = Some (PInt request_count).

(** A part after the rewrite of the request: an empty text has become one
    space, any other part is as it was. *)
Definition filled (part part' : Part) : Prop :=
  (text part = Some EmptyString /\ text part' = Some " ")
  \/ (text part <> Some EmptyString /\ part' = part).

(** The string values of a value, at any depth; keys are not values. *)
Fixpoint string_values (v : pyval) : list string :=
  match v with
  | PStr s => [s]
  | PList l | PTuple l | PSet l => flat_map string_values l
  | PDict d => flat_map (fun kv => string_values (snd kv)) d
  | _ => []
  end.

Definition is_upper (c : ascii) : bool :=
  (Nat.leb 65 (nat_of_ascii c) && Nat.leb (nat_of_ascii c) 90)%bool.

(** No capital ASCII letter occurs in the string. *)
Fixpoint is_lowercase (s : string) : bool :=
  match s with
  | EmptyString => true
  | String c s' => negb (is_upper c) && is_lowercase s'
  end.

(** No element is equal to an element [seen] or earlier in the list. *)
Fixpoint uniq_from (seen s : list pyval) : bool :=
  match s with
  | [] => true
  | x :: s' =>
      negb (existsb (fun y => py_eq y x) seen) && uniq_from (seen ++ [x]) s'
  end.

(** The metadata a source holds: under its top-level key, else under the
    key of its nested [inputs] dictionary. *)
Definition source_meta (source : list (string * pyval)) : option pyval :=
  match dict_get "sessionMetadata" source with
  | Some v => Some v
  | None =>
      match py_dict_get "inputs" source with
      | PDict inputs_candidate => dict_get "sessionMetadata" inputs_candidate
      | _ => None
      end
  end.

(** The tools [after_tool] looks at. *)
Definition watched_tool (tool_name : string) : bool :=
  String.eqb tool_name "sync_ask_for_approval"
  || String.eqb tool_name "approve_discount".

(** The ways a call of the throttle can go. *)
Inductive throttle_case (now : Q) (w : World) : outcome unit -> World -> Prop :=
| throttle_fresh :
    state w !! "timer_start" = None ->
    throttle_case now w (Ok tt) (mkWorld (reset_window now w) (slept w))
| throttle_counted t c tn cn :
    state w !! "timer_start" = Some t -> as_number t = Some tn ->
    state w !! "request_count" = Some c -> as_number c = Some cn ->
    over_quota cn = false ->
    throttle_case now w (Ok tt)
      (mkWorld (<["request_count" := of_number (incremented cn)]> (state w))
         (slept w))
| throttle_delayed t c tn cn :
    state w !! "timer_start" = Some t -> as_number t = Some tn ->
    state w !! "request_count" = Some c -> as_number c = Some cn ->
    over_quota cn = true ->
    throttle_case now w (Ok tt)
      (mkWorld (reset_window now w)
         (if Qle_bool (60 - (now - num_Q tn) + 1) 0 then slept w
          else slept w ++ [(60 - (now - num_Q tn) + 1)%Q]))
| throttle_key_error t :
    state w !! "timer_start" = Some t ->
    state w !! "request_count" = None ->
    throttle_case now w (Raise KeyError) w
| throttle_type_error t c :
    state w !! "timer_start" = Some t ->
    state w !! "request_count" = Some c ->
    as_number c = None \/ as_number t = None ->
    throttle_case now w (Raise TypeError) w.

(** ** Induction on values *)

Section PyvalInduction.
Variable P : pyval -> Prop.
Hypothesis HNone : P PNone.
Hypothesis HBool : forall b, P (PBool b).
Hypothesis HInt : forall n, P (PInt n).
Hypothesis HFloat : forall q, P (PFloat q).
Hypothesis HStr : forall s, P (PStr s).
Hypothesis HList : forall l, Forall P l -> P (PList l).
Hypothesis HTuple : forall l, Forall P l -> P (PTuple l).
Hypothesis HSet : forall l, Forall P l -> P (PSet l).
Hypothesis HDict : forall d, Forall (fun kv => P (snd kv)) d -> P (PDict d).

Fixpoint pyval_nested_ind (v : pyval) : P v :=
  let elements :=
    fix elements (l : list pyval) : Forall P l :=
      match l with
      | [] => @List.Forall_nil _ P
      | x :: l' => @List.Forall_cons _ P x l' (pyval_nested_ind x) (elements l')
      end in
  match v with
  | PNone => HNone
  | PBool b => HBool b
  | PInt n => HInt n
  | PFloat q => HFloat q
  | PStr s => HStr s
  | PList l => HList l (elements l)
  | PTuple l => HTuple l (elements l)
  | PSet l => HSet l (elements l)
  | PDict d =>
      HDict d
        ((fix items (d : list (string * pyval))
            : Forall (fun kv => P (snd kv)) d :=
            match d with
            | [] => @List.Forall_nil _ _
            | (k, x) :: d' =>
                @List.Forall_cons _ (fun kv => P (snd kv)) (k, x) d'
                  (pyval_nested_ind x) (items d')
            end) d)
  end.
End PyvalInduction.

(** * Properties *)

(** ** Running computations *)

Lemma as_number_of_number (x : number) : as_number (of_number x) = Some x.
Proof. destruct x; reflexivity. Qed.

Lemma state_contains_Some (key : string) (v : pyval) (w : World) :
  state w !! key = Some v -> state_contains key w = (Ok true, w).
Proof. intros H. unfold state_contains. rewrite H. reflexivity. Qed.

Lemma state_contains_None (key : string) (w : World) :
  state w !! key = None -> state_contains key w = (Ok false, w).
Proof. intros H. unfold state_contains. rewrite H. reflexivity. Qed.

Lemma state_getitem_Some (key : string) (v : pyval) (w : World) :
  state w !! key = Some v -> state_getitem key w = (Ok v, w).
Proof. intros H. unfold state_getitem. rewrite H. reflexivity. Qed.

Lemma bind_Ok {A B : Type} (m : M A) (f : A -> M B) (w w' : World) (a : A) :
  m w = (Ok a, w') -> (m ≫= f) w = f a w'.
Proof. intros H. unfold mbind, M_bind, bind. rewrite H. reflexivity. Qed.

Lemma bind_Raise {A B : Type} (m : M A) (f : A -> M B) (w w' : World) (e : exn) :
  m w = (Raise e, w') -> (m ≫= f) w = (Raise e, w').
Proof. intros H. unfold mbind, M_bind, bind. rewrite H. reflexivity. Qed.

Lemma num_ltb_leb (x y : number) : num_ltb x y = negb (num_leb y x).
Proof. reflexivity. Qed.

(** ** The request throttle *)

Lemma rate_limit_first (now : Q) (req : LlmRequest) (w : World) :
  state w !! "timer_start" = None ->
  rate_limit_callback now req w
  = (Ok (fill_empty_parts req), mkWorld (reset_window now w) (slept w)).
Proof.
  intros H. unfold rate_limit_callback.
  rewrite (bind_Ok _ _ _ _ _ (state_contains_None _ _ H)). reflexivity.
Qed.

Lemma rate_limit_next (now : Q) (req : LlmRequest) (w : World)
  (t c : pyval) (tn cn : number) :
  state w !! "timer_start" = Some t -> as_number t = Some tn ->
  state w !! "request_count" = Some c -> as_number c = Some cn ->
  rate_limit_callback now req w
  = if over_quota cn then
      let delay := (60 - (now - num_Q tn) + 1)%Q in
      (Ok (fill_empty_parts req),
       mkWorld (reset_window now w)
         (if Qle_bool delay 0 then slept w else slept w ++ [delay]))
    else
      (Ok (fill_empty_parts req),
       mkWorld (<["request_count" := of_number (incremented cn)]> (state w))
         (slept w)).
Proof.
  intros Ht Htn Hc Hcn.
  unfold rate_limit_callback, mbind, M_bind, bind, state_contains,
    state_getitem, lift.
  cbv beta. rewrite Ht. cbn -[insert]. rewrite Hc. cbv beta iota.
  unfold py_add at 1. rewrite Hcn. cbn -[insert num_add]. rewrite Ht, Htn.
  unfold py_gt at 1. rewrite as_number_of_number. cbn [as_number].
  rewrite num_ltb_leb. fold (incremented cn). fold (over_quota cn).
  destruct (over_quota cn); [| reflexivity].
  cbn -[insert]. unfold py_sleep, num_ltb, reset_window. cbn -[insert Qle_bool].
  destruct (Qle_bool _ _); reflexivity.
Qed.

Lemma reset_window_timer (now : Q) (w : World) :
  reset_window now w !! "timer_start" = Some (PFloat now).
Proof.
  unfold reset_window. rewrite lookup_insert_ne by discriminate.
  apply lookup_insert_eq.
Qed.

Lemma reset_window_count (now : Q) (w : World) :
  reset_window now w !! "request_count" = Some (PInt 1).
Proof. unfold reset_window. apply lookup_insert_eq. Qed.

Lemma reset_window_other (now : Q) (w : World) (key : string) :
  key <> "timer_start" -> key <> "request_count" ->
  reset_window now w !! key = state w !! key.
Proof.
  intros H1 H2. unfold reset_window.
  rewrite !lookup_insert_ne by congruence. reflexivity.
Qed.

(** Every call that returns leaves a window behind, so a later call on
    that state is a subsequent call in the sense used below. *)
Lemma rate_limit_leaves_window (now : Q) (req req' : LlmRequest) (w w' : World) :
  rate_limit_callback now req w = (Ok req', w') ->
  exists tn cn, window w' tn cn.
Proof.
  intros H. destruct (state w !! "timer_start") as [t|] eqn:Ht.
  - destruct (state w !! "request_count") as [c|] eqn:Hc;
      [destruct (as_number c) as [cn|] eqn:Hcn;
       [destruct (as_number t) as [tn|] eqn:Htn |] |].
    2-4: exfalso; revert H;
      unfold rate_limit_callback, mbind, M_bind, bind, state_contains,
        state_getitem, lift; cbv beta; rewrite Ht; cbn -[insert];
      rewrite Hc; cbv beta iota; try (unfold py_add at 1; rewrite Hcn);
      cbn -[insert num_add]; try rewrite Ht; try rewrite Htn; discriminate.
    rewrite (rate_limit_next now req w t c tn cn Ht Htn Hc Hcn) in H.
    destruct (over_quota cn); injection H as _ <-.
    + exists (NFloat now), (NInt 1). split; eexists; split;
        [apply reset_window_timer | reflexivity
        | apply reset_window_count | reflexivity].
    + exists tn, (incremented cn). split; eexists; cbn -[insert].
      * split; [| exact Htn].
        rewrite lookup_insert_ne by discriminate. exact Ht.
      * split; [apply lookup_insert_eq | apply as_number_of_number].
  - rewrite (rate_limit_first now req w Ht) in H. injection H as _ <-.
    exists (NFloat now), (NInt 1). split; eexists; split;
      [apply reset_window_timer | reflexivity
      | apply reset_window_count | reflexivity].
Qed.

(** C7.  On a session state without a [timer_start] key, the call returns
    normally, stores the current time under [timer_start] and 1 under
    [request_count], leaves every other key alone and does not sleep. *)
Theorem throttle_first_call (now : Q) (req : LlmRequest) (w : World) :
  state w !! "timer_start" = None ->
  exists w',
    rate_limit_callback now req w = (Ok (fill_empty_parts req), w')
    /\ state w' !! "timer_start" = Some (PFloat now)
    /\ state w' !! "request_count" = Some (PInt 1)
    /\ slept w' = slept w
    /\ (forall key, key <> "timer_start" -> key <> "request_count" ->
                    state w' !! key = state w !! key).
Proof.
  intros H. eexists. split; [apply rate_limit_first; exact H |].
  cbn [state slept]. split; [apply reset_window_timer |].
  split; [apply reset_window_count |].
  split; [reflexivity |]. intros key. apply reset_window_other.
Qed.

(** C8.  On a later call whose incremented count is at most the quota of
    10, the call returns normally without sleeping, stores the incremented
    count under [request_count] and leaves [timer_start] and every other key
    as they were. *)
Theorem throttle_under_quota (now : Q) (req : LlmRequest) (w : World)
  (timer_start request_count : number) :
  window w timer_start request_count ->
  num_leb (incremented request_count) (NInt RPM_QUOTA) = true ->
  exists w',
    rate_limit_callback now req w = (Ok (fill_empty_parts req), w')
    /\ slept w' = slept w
    /\ state w' !! "request_count" = Some (of_number (incremented request_count))
    /\ (forall key, key <> "request_count" -> state w' !! key = state w !! key).
Proof.
  intros [(t & Ht & Htn) (c & Hc & Hcn)] Hle. eexists. split.
  - rewrite (rate_limit_next now req w t c _ _ Ht Htn Hc Hcn).
    unfold over_quota. rewrite Hle. reflexivity.
  - cbn [state slept]. split; [reflexivity |].
    split; [apply lookup_insert_eq |].
    intros key Hkey. apply lookup_insert_ne. congruence.
Qed.

(** C5.  On a later call whose incremented count exceeds the quota of 10,
    the delay is [60 - elapsed + 1] with [elapsed] the time since
    [timer_start]; the call sleeps that long exactly when the delay is
    positive, and in both cases it stores the current time under
    [timer_start] and 1 under [request_count]. *)
Theorem throttle_over_quota (now : Q) (req : LlmRequest) (w : World)
  (timer_start request_count : number) :
  window w timer_start request_count ->
  num_leb (incremented request_count) (NInt RPM_QUOTA) = false ->
  let elapsed := (now - num_Q timer_start)%Q in
  let delay := (60 - elapsed + 1)%Q in
  exists w',
    rate_limit_callback now req w = (Ok (fill_empty_parts req), w')
    /\ ((0 < delay)%Q -> slept w' = slept w ++ [delay])
    /\ ((delay <= 0)%Q -> slept w' = slept w)
    /\ state w' !! "timer_start" = Some (PFloat now)
    /\ state w' !! "request_count" = Some (PInt 1)
    /\ (forall key, key <> "timer_start" -> key <> "request_count" ->
                    state w' !! key = state w !! key).
Proof.
  intros [(t & Ht & Htn) (c & Hc & Hcn)] Hgt elapsed delay. eexists. split.
  - rewrite (rate_limit_next now req w t c _ _ Ht Htn Hc Hcn).
    unfold over_quota. rewrite Hgt. reflexivity.
  - cbn [state slept negb]. fold elapsed. fold delay.
    split; [| split; [| split; [apply reset_window_timer |
      split; [apply reset_window_count | intros key; apply reset_window_other]]]].
    + intros Hpos. destruct (Qle_bool delay 0) eqn:E; [| reflexivity].
      apply Qle_bool_iff in E. exfalso. exact (Qlt_not_le _ _ Hpos E).
    + intros Hneg. apply Qle_bool_iff in Hneg. rewrite Hneg. reflexivity.
Qed.

Lemma session_world_window (n : Z) :
  window (session_world n) (NFloat 100) (NInt n).
Proof.
  split; eexists; split; try reflexivity.
Qed.

Lemma throttle_first_call_witness :
  exists w',
    rate_limit_callback 100 [[mkPart (Some EmptyString)]] fresh_world
    = (Ok [[mkPart (Some " ")]], w')
    /\ state w' !! "timer_start" = Some (PFloat 100)
    /\ state w' !! "request_count" = Some (PInt 1)
    /\ slept w' = [].
Proof.
  destruct (throttle_first_call 100 [[mkPart (Some EmptyString)]] fresh_world)
    as (w' & H1 & H2 & H3 & H4 & _); [reflexivity |].
  exists w'. repeat split; assumption.
Defined.

Lemma throttle_under_quota_witness :
  exists w',
    rate_limit_callback 130 [] (session_world 4) = (Ok [], w')
    /\ slept w' = []
    /\ state w' !! "request_count" = Some (PInt 5)
    /\ state w' !! "timer_start" = Some (PFloat 100).
Proof.
  destruct (throttle_under_quota 130 [] (session_world 4) (NFloat 100) (NInt 4))
    as (w' & H1 & H2 & H3 & H4);
    [apply session_world_window | reflexivity |].
  exists w'. split; [exact H1 |]. split; [exact H2 |]. split; [exact H3 |].
  rewrite H4 by discriminate. reflexivity.
Defined.

Lemma throttle_over_quota_witness :
  exists w',
    rate_limit_callback 130 [] (session_world 10) = (Ok [], w')
    /\ slept w' = [(60 - (130 - 100) + 1)%Q]
    /\ state w' !! "timer_start" = Some (PFloat 130)
    /\ state w' !! "request_count" = Some (PInt 1).
Proof.
  destruct (throttle_over_quota 130 [] (session_world 10) (NFloat 100) (NInt 10))
    as (w' & H1 & H2 & _ & H3 & H4 & _);
    [apply session_world_window | reflexivity |].
  exists w'. split; [exact H1 |]. split; [apply H2; reflexivity |].
  split; assumption.
Defined.

(** ** [lowercase_value] *)

Lemma dict_set_fresh {A : Type} (k : string) (v : A) (d : list (string * A)) :
  existsb (String.eqb k) (map fst d) = false -> dict_set k v d = d ++ [(k, v)].
Proof.
  induction d as [| [k' v'] d IH]; cbn; [reflexivity |].
  intros H. apply orb_false_iff in H as [H1 H2].
  rewrite H1, (IH H2). reflexivity.
Qed.

Lemma existsb_app_false {A : Type} (f : A -> bool) (l1 l2 : list A) :
  existsb f (l1 ++ l2) = false <-> existsb f l1 = false /\ existsb f l2 = false.
Proof. rewrite existsb_app. apply orb_false_iff. Qed.

Lemma distinct_app_cons (k : string) (l1 l2 : list string) :
  distinct (l1 ++ k :: l2) = true ->
  existsb (String.eqb k) l1 = false /\ distinct ((l1 ++ [k]) ++ l2) = true.
Proof.
  induction l1 as [| a l1 IH]; cbn.
  - intros H. split; [reflexivity | exact H].
  - intros H. apply andb_true_iff in H as [H1 H2].
    apply negb_true_iff in H1. apply existsb_app_false in H1 as [H1a H1b].
    cbn in H1b. apply orb_false_iff in H1b as [Hak H1b].
    destruct (IH H2) as [IH1 IH2]. split.
    + apply orb_false_iff. split; [| exact IH1].
      rewrite String.eqb_sym. exact Hak.
    + apply andb_true_iff. split; [| exact IH2].
      apply negb_true_iff. rewrite <- app_assoc. apply existsb_app_false.
      split; [exact H1a |]. cbn. rewrite Hak. exact H1b.
Qed.

Lemma py_dict_from {A : Type} (pairs acc : list (string * A)) :
  distinct (map fst acc ++ map fst pairs) = true ->
  fold_left (fun d kv => dict_set (fst kv) (snd kv) d) pairs acc = acc ++ pairs.
Proof.
  revert acc. induction pairs as [| [k v] pairs IH]; intros acc H; cbn.
  - symmetry. apply app_nil_r.
  - cbn in H. apply distinct_app_cons in H as [Hk Hd].
    rewrite (dict_set_fresh k v acc Hk).
    rewrite IH; [rewrite <- app_assoc; reflexivity |].
    rewrite map_app. exact Hd.
Qed.

(** [dict(items)] over items with distinct keys is these items. *)
Lemma py_dict_distinct {A : Type} (pairs : list (string * A)) :
  distinct (map fst pairs) = true -> py_dict pairs = pairs.
Proof. intros H. unfold py_dict. apply (py_dict_from pairs []). exact H. Qed.

Lemma lowercase_items_keys (d : list (string * pyval)) :
  map fst (map (fun '(k, v) => (k, lowercase_value v)) d) = map fst d.
Proof.
  induction d as [| [k v] d IH]; cbn; [reflexivity | rewrite IH; reflexivity].
Qed.

(** C9.  On every value, [lowercase_value] keeps dictionary keys, lowercases
    every string value at any depth, rebuilds each list, set and tuple with
    its own type around the processed elements, and returns any other value
    unchanged. *)
Theorem lowercase_value_lowered (value : pyval) :
  well_formed value = true -> lowered value (lowercase_value value).
Proof.
  induction value as [| b | n | q | s | l IH | l IH | l IH | d IH]
    using pyval_nested_ind; intros Hwf; cbn; try constructor.
  1-3: cbn in Hwf; induction IH as [| x l Hx _ IHl]; cbn; constructor;
    apply andb_true_iff in Hwf as [Hwx Hwl]; [apply Hx; exact Hwx | apply IHl; exact Hwl].
  cbn in Hwf. apply andb_true_iff in Hwf as [Hkeys Hvals].
  rewrite py_dict_distinct by (rewrite lowercase_items_keys; exact Hkeys).
  clear Hkeys. induction IH as [| [k x] d Hx _ IHd]; cbn; constructor.
  - cbn in Hvals. apply andb_true_iff in Hvals as [Hwx _].
    split; [reflexivity | apply Hx; exact Hwx].
  - cbn in Hvals. apply andb_true_iff in Hvals as [_ Hwd]. apply IHd. exact Hwd.
Qed.

(** The relation leaves no choice: the lowercased form is the only value
    it accepts. *)
Lemma lowered_unique (value result : pyval) :
  well_formed value = true -> lowered value result ->
  result = lowercase_value value.
Proof.
  revert result.
  induction value as [| b | n | q | s | l IH | l IH | l IH | d IH]
    using pyval_nested_ind; intros result Hwf Hlow;
    inversion Hlow as [| | | | | ? l' Hall | ? l' Hall | ? l' Hall | ? d' Hall];
    subst; cbn; try reflexivity.
  1-3: cbn in Hwf; repeat f_equal; clear Hlow; revert Hwf IH;
    induction Hall as [| x y l l' Hxy _ IHall]; intros Hwf IH;
    [reflexivity |];
    cbn in Hwf; apply andb_true_iff in Hwf as [Hwx Hwl];
    inversion IH as [| ? ? Hx Hl]; subst; cbn;
    rewrite (Hx y Hwx Hxy), (IHall Hwl Hl); reflexivity.
  cbn in Hwf. apply andb_true_iff in Hwf as [Hkeys Hvals].
  rewrite py_dict_distinct by (rewrite lowercase_items_keys; exact Hkeys).
  f_equal. clear Hkeys Hlow. revert Hvals IH.
  induction Hall as [| [k x] [k' y] d d' [Hk Hxy] _ IHall]; intros Hvals IH;
    [reflexivity |].
  cbn in Hvals, Hk, Hxy. apply andb_true_iff in Hvals as [Hwx Hwd].
  inversion IH as [| ? ? Hx Hd]; subst; cbn in *.
  rewrite (Hx y Hwx Hxy), (IHall Hwd Hd). reflexivity.
Qed.

Lemma string_append_assoc (a b c : string) :
  (a +:+ b) +:+ c = a +:+ (b +:+ c).
Proof.
  induction a as [| x a IH]; [reflexivity |].
  change (String x ((a +:+ b) +:+ c) = String x (a +:+ (b +:+ c))).
  rewrite IH. reflexivity.
Qed.

(** ** The customer-id validator *)

Section GuardProperties.
Variable json_loads : string -> option pyval.
Variable py_repr : pyval -> string.

Abbreviation validate := (validate_customer_id json_loads py_repr).
Abbreviation guard := (before_tool json_loads py_repr).
Abbreviation validate_case := (validate_case json_loads py_repr).
Abbreviation customer_check_passes :=
  (customer_check_passes json_loads py_repr).

Lemma validate_unbound (customer_id : pyval) (w : World) :
  state w !! "customer_profile" = None ->
  validate customer_id w = (Ok (false, no_profile_msg), w).
Proof.
  intros H. unfold validate_customer_id.
  rewrite (bind_Ok _ _ _ _ _ (state_contains_None _ _ H)). reflexivity.
Qed.

Lemma validate_not_string (customer_id profile : pyval) (w : World) :
  state w !! "customer_profile" = Some profile ->
  (forall s, profile <> PStr s) ->
  validate customer_id w = (Raise TypeError, w).
Proof.
  intros H Hns. unfold validate_customer_id.
  rewrite (bind_Ok _ _ _ _ _ (state_contains_Some _ _ _ H)). cbn [negb].
  unfold try_except.
  rewrite (bind_Ok _ _ _ _ _ (state_getitem_Some _ _ _ H)).
  destruct profile; try reflexivity. exfalso. exact (Hns s eq_refl).
Qed.

Lemma validate_undecodable (customer_id : pyval) (s : string) (w : World) :
  state w !! "customer_profile" = Some (PStr s) ->
  json_loads s = None ->
  validate customer_id w = (Ok (false, unparsed_msg), w).
Proof.
  intros H Hj. unfold validate_customer_id.
  rewrite (bind_Ok _ _ _ _ _ (state_contains_Some _ _ _ H)). cbn [negb].
  unfold try_except.
  rewrite (bind_Ok _ _ _ _ _ (state_getitem_Some _ _ _ H)).
  unfold py_json_loads. rewrite Hj. reflexivity.
Qed.

Lemma validate_not_object (customer_id data : pyval) (s : string) (w : World) :
  state w !! "customer_profile" = Some (PStr s) ->
  json_loads s = Some data ->
  is_dict data = false ->
  validate customer_id w = (Raise AttributeError, w).
Proof.
  intros H Hj Hd. unfold validate_customer_id.
  rewrite (bind_Ok _ _ _ _ _ (state_contains_Some _ _ _ H)). cbn [negb].
  unfold try_except.
  rewrite (bind_Ok _ _ _ _ _ (state_getitem_Some _ _ _ H)).
  unfold py_json_loads. rewrite Hj.
  destruct data; try reflexivity. discriminate.
Qed.

Lemma validate_object (customer_id : pyval) (s : string)
  (d : list (string * pyval)) (w : World) :
  state w !! "customer_profile" = Some (PStr s) ->
  json_loads s = Some (PDict d) ->
  validate customer_id w
  = (Ok (if py_eq customer_id (py_dict_get "customer_id" d)
         then (true, EmptyString)
         else (false, mismatch_msg py_repr customer_id
                        (py_dict_get "customer_id" d))), w).
Proof.
  intros H Hj. unfold validate_customer_id.
  rewrite (bind_Ok _ _ _ _ _ (state_contains_Some _ _ _ H)). cbn [negb].
  unfold try_except.
  rewrite (bind_Ok _ _ _ _ _ (state_getitem_Some _ _ _ H)).
  unfold py_json_loads. rewrite Hj.
  unfold mbind, mret, M_bind, M_ret, bind, ret, py_get. cbn.
  destruct (py_eq _ _); reflexivity.
Qed.

Lemma validate_cases (customer_id : pyval) (w : World) :
  exists r, validate customer_id w = (r, w) /\ validate_case customer_id w r.
Proof.
  destruct (state w !! "customer_profile") as [profile |] eqn:H.
  2: { eexists. split; [apply validate_unbound; exact H |].
       apply case_unbound. exact H. }
  assert (Hs : (exists s, profile = PStr s) \/ (forall s, profile <> PStr s)).
  { destruct profile; try (right; intros ?; discriminate). left. eauto. }
  destruct Hs as [[s ->] | Hns].
  2: { eexists. split; [eapply validate_not_string; eauto |].
       eapply case_not_string; eauto. }
  destruct (json_loads s) as [data |] eqn:Hj.
  2: { eexists. split; [eapply validate_undecodable; eauto |].
       eapply case_undecodable; eauto. }
  destruct (is_dict data) eqn:Hd.
  2: { eexists. split; [eapply validate_not_object; eauto |].
       eapply case_not_object; eauto. }
  destruct data; try discriminate.
  eexists. split; [eapply validate_object; eauto |].
  destruct (py_eq customer_id (py_dict_get "customer_id" items)) eqn:E.
  - eapply case_match; eauto.
  - eapply case_mismatch; eauto.
Qed.

Lemma mentions_intro (before sub after : string) :
  mentions sub (before +:+ sub +:+ after).
Proof. exists before, after. reflexivity. Qed.

(** C6.  The validator never changes the world; it returns [(True, "")]
    exactly when the profile in the state is a JSON text that decodes to
    an object whose [customer_id] equals the candidate; without a
    [customer_profile] key it returns [False] and the
    no-profile message; on a different stored id it returns [False] and
    a message that mentions the stored id; on a text that is not valid JSON
    it returns [False] and a message that contains "couldn't be parsed". *)
Theorem validate_customer_id_spec (customer_id : pyval) (w : World) :
  snd (validate customer_id w) = w
  /\ (fst (validate customer_id w) = Ok (true, EmptyString) <->
      exists s d,
        state w !! "customer_profile" = Some (PStr s)
        /\ json_loads s = Some (PDict d)
        /\ py_eq customer_id (py_dict_get "customer_id" d) = true)
  /\ (state w !! "customer_profile" = None ->
      fst (validate customer_id w)
      = Ok (false, "No customer profile selected. Please select a profile."))
  /\ (forall s d,
        state w !! "customer_profile" = Some (PStr s) ->
        json_loads s = Some (PDict d) ->
        py_eq customer_id (py_dict_get "customer_id" d) = false ->
        exists msg,
          fst (validate customer_id w) = Ok (false, msg)
          /\ mentions (py_str py_repr (py_dict_get "customer_id" d)) msg)
  /\ (forall s,
        state w !! "customer_profile" = Some (PStr s) ->
        json_loads s = None ->
        exists msg,
          fst (validate customer_id w) = Ok (false, msg)
          /\ mentions "couldn't be parsed" msg).
Proof.
  destruct (validate_cases customer_id w) as (r & Hr & Hcase).
  rewrite Hr. cbn [fst snd]. split; [reflexivity |]. split.
  - split.
    + intros ->. inversion Hcase; subst; eauto.
    + intros (s & d & H & Hj & E).
      pose proof (validate_object customer_id s d w H Hj) as Hv.
      rewrite E, Hr in Hv. congruence.
  - split; [| split].
    + intros H. pose proof (validate_unbound customer_id w H) as Hv.
      rewrite Hr in Hv. injection Hv as ->. reflexivity.
    + intros s d H Hj E.
      pose proof (validate_object customer_id s d w H Hj) as Hv.
      rewrite E, Hr in Hv. injection Hv as ->.
      eexists. split; [reflexivity |]. unfold mismatch_msg.
      exists ("You cannot use the tool with customer_id "
                +:+ py_str py_repr customer_id +:+ ", only for "), ".".
      rewrite !string_append_assoc. reflexivity.
    + intros s H Hj.
      pose proof (validate_undecodable customer_id s w H Hj) as Hv.
      rewrite Hr in Hv. injection Hv as ->.
      eexists. split; [reflexivity |].
      exists "Customer profile ", ". Please reload the customer data.".
      reflexivity.
Qed.

(** C10.  When the profile decodes to an object without a [customer_id]
    key, the stored id is [None]: a candidate string is answered with
    [False] and the mismatch message naming [None], which is not the
    message of the parse failure. *)
Theorem validate_missing_customer_id (candidate s : string)
  (d : list (string * pyval)) (w : World) :
  state w !! "customer_profile" = Some (PStr s) ->
  json_loads s = Some (PDict d) ->
  dict_get "customer_id" d = None ->
  validate (PStr candidate) w
  = (Ok (false, "You cannot use the tool with customer_id " +:+ candidate
                +:+ ", only for None."), w)
  /\ "You cannot use the tool with customer_id " +:+ candidate
       +:+ ", only for None."
     <> "Customer profile couldn't be parsed. Please reload the customer data.".
Proof.
  intros H Hj Hd. split; [| discriminate].
  rewrite (validate_object _ s d w H Hj).
  unfold py_dict_get. rewrite Hd. reflexivity.
Qed.

(** ** The pre-tool guard *)

Lemma validate_world (customer_id : pyval) (w : World) :
  validate customer_id w = (fst (validate customer_id w), w).
Proof.
  destruct (validate_cases customer_id w) as (r & Hr & _).
  rewrite Hr. reflexivity.
Qed.

Lemma truthy_number (v : pyval) (x : number) :
  as_number v = Some x -> py_truthy v = negb (Qeq_bool (num_Q x) 0).
Proof.
  destruct v; try discriminate; intros [= <-]; cbn.
  - destruct b; reflexivity.
  - destruct (Z.eqb_spec n 0) as [-> | Hn]; [reflexivity |].
    destruct (Qeq_bool (inject_Z n) 0) eqn:E; [| reflexivity].
    apply Qeq_bool_iff in E. unfold Qeq in E. cbn in E. lia.
  - reflexivity.
Qed.

(** The guard after the customer check, on a tool other than
    [modify_cart]. *)
Lemma guard_rules (tool_name : string) (args : list (string * pyval))
  (w : World) :
  customer_check_passes args w ->
  String.eqb tool_name "modify_cart" = false ->
  guard tool_name args w
  = if String.eqb tool_name "sync_ask_for_approval"
       && py_truthy (py_dict_get "value" args)
    then
      match py_le (py_dict_get "value" args) (PInt 10) with
      | Ok true => (Ok (mkGuardResult approval_response args), w)
      | Ok false => (Ok (mkGuardResult PNone args), w)
      | Raise e => (Raise e, w)
      end
    else (Ok (mkGuardResult PNone args), w).
Proof.
  intros Hpass Hcart. unfold before_tool, customer_check_passes in *.
  rewrite Hcart.
  destruct (dict_get "customer_id" args) as [customer_id |].
  - unfold mbind, M_bind, bind. rewrite (validate_world customer_id w), Hpass.
    cbv beta iota.
    destruct (String.eqb tool_name "sync_ask_for_approval"); cbn; [| reflexivity].
    destruct (py_truthy _); cbn; [| reflexivity].
    unfold lift. destruct (py_le _ _) as [[|] |]; reflexivity.
  - unfold mbind, M_bind, bind.
    destruct (String.eqb tool_name "sync_ask_for_approval"); cbn; [| reflexivity].
    destruct (py_truthy _); cbn; [| reflexivity].
    unfold lift. destruct (py_le _ _) as [[|] |]; reflexivity.
Qed.

(** C4, amended.  For the tool [sync_ask_for_approval] and arguments that
    pass the customer check: a [value] that is a non-zero number at most
    10 is answered with the approval dictionary; a [value] of 11 or no
    [value] is answered with [None].  In both cases [args] is as it was
    and nothing is raised. *)
Theorem approval_rule (args : list (string * pyval)) (w : World) :
  customer_check_passes args w ->
  (forall amount x,
      dict_get "value" args = Some amount ->
      as_number amount = Some x ->
      ~ (num_Q x == 0)%Q ->
      (num_Q x <= 10)%Q ->
      guard "sync_ask_for_approval" args w
      = (Ok (mkGuardResult
               (PDict [("status", PStr "approved");
                       ("message",
                        PStr "You can approve this discount; no manager needed.")])
               args), w))
  /\ (dict_get "value" args = Some (PInt 11) \/ dict_get "value" args = None ->
      guard "sync_ask_for_approval" args w = (Ok (mkGuardResult PNone args), w)).
Proof.
  intros Hpass. split.
  - intros amount x Hv Hx Hnz Hle.
    rewrite (guard_rules "sync_ask_for_approval" args w Hpass eq_refl).
    unfold py_dict_get. rewrite Hv. rewrite (truthy_number amount x Hx).
    destruct (Qeq_bool (num_Q x) 0) eqn:E.
    { apply Qeq_bool_iff in E. contradiction. }
    cbn [String.eqb andb negb]. unfold py_le. rewrite Hx. cbn [as_number].
    apply Qle_bool_iff in Hle. unfold num_leb. cbn [num_Q].
    change (inject_Z 10) with 10%Q. rewrite Hle. reflexivity.
  - intros Hv. rewrite (guard_rules "sync_ask_for_approval" args w Hpass eq_refl).
    unfold py_dict_get. destruct Hv as [-> | ->]; reflexivity.
Qed.

End GuardProperties.

(** ** The validator and the guard on concrete sessions *)

Lemma validate_customer_id_spec_witness :
  fst (validate_customer_id Json.json_decode Json.repr (PStr "42")
         (profile_world (PStr (profile_of "42"))))
  = Ok (true, EmptyString)
  /\ (exists msg,
        fst (validate_customer_id Json.json_decode Json.repr (PStr "7")
               (profile_world (PStr (profile_of "42"))))
        = Ok (false, msg)
        /\ mentions "42" msg)
  /\ fst (validate_customer_id Json.json_decode Json.repr (PStr "42") fresh_world)
     = Ok (false, "No customer profile selected. Please select a profile.")
  /\ (exists msg,
        fst (validate_customer_id Json.json_decode Json.repr (PStr "42")
               (profile_world (PStr "{customer_id")))
        = Ok (false, msg)
        /\ mentions "couldn't be parsed" msg).
Proof.
  split; [| split; [| split]].
  - apply (validate_customer_id_spec Json.json_decode Json.repr (PStr "42")
             (profile_world (PStr (profile_of "42")))).
    exists (profile_of "42"), [("customer_id", PStr "42")].
    repeat split; reflexivity.
  - apply (validate_customer_id_spec Json.json_decode Json.repr (PStr "7")
             (profile_world (PStr (profile_of "42"))))
      with (s := profile_of "42") (d := [("customer_id", PStr "42")]);
      reflexivity.
  - apply (validate_customer_id_spec Json.json_decode Json.repr (PStr "42")
             fresh_world).
    reflexivity.
  - apply (validate_customer_id_spec Json.json_decode Json.repr (PStr "42")
             (profile_world (PStr "{customer_id")))
      with (s := "{customer_id"); reflexivity.
Defined.

Lemma validate_missing_customer_id_witness :
  validate_customer_id Json.json_decode Json.repr (PStr "42")
    (profile_world (PStr "{}"))
  = (Ok (false, "You cannot use the tool with customer_id 42, only for None."),
     profile_world (PStr "{}")).
Proof.
  apply (validate_missing_customer_id Json.json_decode Json.repr "42" "{}" []
           (profile_world (PStr "{}")));
    reflexivity.
Defined.

(** C2.  The validator raises on a profile that is valid JSON but not an
    object ([AttributeError] from [.get]) and on a profile that is not a
    string ([TypeError] from [json.loads]); neither is caught. *)
Theorem validate_customer_id_raises :
  validate_customer_id Json.json_decode Json.repr (PStr "1")
    (profile_world (PStr "[1]"))
  = (Raise AttributeError, profile_world (PStr "[1]"))
  /\ validate_customer_id Json.json_decode Json.repr (PStr "42")
       (profile_world (PDict [("customer_id", PStr "42")]))
     = (Raise TypeError, profile_world (PDict [("customer_id", PStr "42")])).
Proof.
  split.
  - apply validate_not_object with (s := "[1]") (data := PList [PInt 1]);
      reflexivity.
  - apply validate_not_string with (profile := PDict [("customer_id", PStr "42")]);
      [reflexivity | discriminate].
Qed.

(** C1.  The guard leaves [args] as it received them: a string value
    keeps its capitals, and the customer check compares the unlowered
    [customer_id] with the stored one. *)
Theorem before_tool_args_not_lowercased :
  let args := [("customer_id", PStr "ABC"); ("city", PStr "Paris")] in
  let w := profile_world (PStr (profile_of "abc")) in
  lowercase_value (PDict args)
  = PDict [("customer_id", PStr "abc"); ("city", PStr "paris")]
  /\ before_tool Json.json_decode Json.repr "get_weather" args w
     = (Ok (mkGuardResult
              (PStr "You cannot use the tool with customer_id ABC, only for abc.")
              args), w)
  /\ before_tool Json.json_decode Json.repr "get_weather" [("city", PStr "Paris")]
       fresh_world
     = (Ok (mkGuardResult PNone [("city", PStr "Paris")]), fresh_world).
Proof. repeat split; vm_compute; reflexivity. Qed.

Lemma approval_rule_witness :
  before_tool Json.json_decode Json.repr "sync_ask_for_approval"
    [("value", PInt 10)] fresh_world
  = (Ok (mkGuardResult approval_response [("value", PInt 10)]), fresh_world)
  /\ before_tool Json.json_decode Json.repr "sync_ask_for_approval"
       [("value", PInt 11)] fresh_world
     = (Ok (mkGuardResult PNone [("value", PInt 11)]), fresh_world).
Proof.
  split.
  - apply (approval_rule Json.json_decode Json.repr [("value", PInt 10)]
             fresh_world I) with (amount := PInt 10) (x := NInt 10);
      [reflexivity | reflexivity | discriminate | discriminate].
  - apply (approval_rule Json.json_decode Json.repr [("value", PInt 11)]
             fresh_world I).
    left. reflexivity.
Defined.

(** C4 as stated fails: a [value] of 0 is present and at most 10, yet the
    guard returns [None]; and a [value] of 5 next to a [customer_id] that
    the validator rejects is answered with the validator's message. *)
Lemma approval_rule_counterexample :
  (dict_get "value" [("value", PInt 0)] = Some (PInt 0)
   /\ py_le (PInt 0) (PInt 10) = Ok true
   /\ before_tool Json.json_decode Json.repr "sync_ask_for_approval"
        [("value", PInt 0)] fresh_world
      = (Ok (mkGuardResult PNone [("value", PInt 0)]), fresh_world))
  /\ (dict_get "value" [("customer_id", PStr "7"); ("value", PInt 5)]
      = Some (PInt 5)
      /\ py_le (PInt 5) (PInt 10) = Ok true
      /\ before_tool Json.json_decode Json.repr "sync_ask_for_approval"
           [("customer_id", PStr "7"); ("value", PInt 5)]
           (profile_world (PStr (profile_of "42")))
         = (Ok (mkGuardResult
                  (PStr "You cannot use the tool with customer_id 7, only for 42.")
                  [("customer_id", PStr "7"); ("value", PInt 5)]),
            profile_world (PStr (profile_of "42")))).
Proof. repeat split; vm_compute; reflexivity. Qed.

(** ** The session-metadata extractor *)

Lemma dict_contains_false {A : Type} (k : string) (d : list (string * A)) :
  dict_contains k d = false -> dict_get k d = None.
Proof. unfold dict_contains. destruct (dict_get k d); [discriminate | reflexivity]. Qed.

Lemma scan_sources_absent (sources : list (list (string * pyval))) :
  forallb absent_in sources = true -> scan_sources sources = PNone.
Proof.
  induction sources as [| source rest IH]; cbn; [reflexivity |].
  intros H. apply andb_true_iff in H as [Hs Hrest].
  unfold absent_in in Hs. apply andb_true_iff in Hs as [Htop Hnested].
  apply negb_true_iff, dict_contains_false in Htop. rewrite Htop.
  destruct (py_dict_get "inputs" source); try (apply IH; exact Hrest).
  apply negb_true_iff, dict_contains_false in Hnested. rewrite Hnested.
  apply IH. exact Hrest.
Qed.

Lemma possible_sources_absent (inv : InvocationContext) :
  forallb absent_in_value (run_config_locations inv) = true ->
  forallb absent_in (possible_sources inv) = true.
Proof.
  unfold run_config_locations, possible_sources.
  destruct (inv_run_config inv) as [rc |]; [| reflexivity].
  cbn [app forallb]. intros H.
  apply andb_true_iff in H as [H1 H]. apply andb_true_iff in H as [H2 H3].
  rewrite !forallb_app. rewrite !andb_true_iff. repeat split.
  - destruct (getattr_or_None (rc_inputs rc)); try reflexivity.
    cbn. rewrite andb_true_r. exact H1.
  - destruct (getattr_or_None (rc_extra_kwargs rc)); try reflexivity.
    cbn. rewrite andb_true_r. exact H2.
  - destruct (rc_model_dump rc) as [[] |]; try reflexivity. exact H3.
Qed.

Lemma dump_for_log_returns (inv : InvocationContext) (w : World) :
  exists dumps, dump_for_log inv w = (Ok dumps, w).
Proof.
  unfold dump_for_log, try_except, mbind, M_bind, bind, lift.
  destruct (inv_model_dump inv); eexists; reflexivity.
Qed.

(** What a call does: it never raises, and it writes the metadata it found
    when that value is truthy. *)
Lemma before_agent_run (callback_context : CallbackContext) (w : World) :
  before_agent callback_context w
  = (Ok tt,
     match _invocation_context callback_context with
     | Some inv =>
         if py_truthy (find_session_meta inv)
         then mkWorld (<["session_metadata" := find_session_meta inv]> (state w))
                (slept w)
         else w
     | None => w
     end).
Proof.
  unfold before_agent. destruct (_invocation_context callback_context) as [inv |];
    [| reflexivity].
  destruct (py_truthy (find_session_meta inv)); [reflexivity |].
  unfold mbind, M_bind, bind.
  destruct (dump_for_log_returns inv w) as [dumps ->]. reflexivity.
Qed.

(** C3, amended.  When the direct [inputs] mapping has a [sessionMetadata]
    key with a truthy value, that value is stored unchanged under
    [session_metadata] and nothing else changes; when [sessionMetadata] is
    absent from every lookup location, the world is left as it was.  In both
    cases the call returns normally. *)
Theorem before_agent_session_metadata (inv : InvocationContext) (w : World) :
  (forall raw_inputs meta,
      inv_inputs inv = Some (PDict raw_inputs) ->
      dict_get "sessionMetadata" raw_inputs = Some meta ->
      py_truthy meta = true ->
      before_agent (mkCallbackContext (Some inv)) w
      = (Ok tt, mkWorld (<["session_metadata" := meta]> (state w)) (slept w)))
  /\ (metadata_absent inv = true ->
      before_agent (mkCallbackContext (Some inv)) w = (Ok tt, w)).
Proof.
  split.
  - intros raw_inputs meta Hin Hmeta Htruthy.
    rewrite before_agent_run. cbn [_invocation_context].
    assert (Hfind : find_session_meta inv = meta).
    { unfold find_session_meta, direct_session_meta. rewrite Hin.
      cbn [getattr_or_None]. unfold py_dict_get. rewrite Hmeta.
      destruct meta; try reflexivity. discriminate. }
    rewrite Hfind, Htruthy. reflexivity.
  - intros Habsent. rewrite before_agent_run. cbn [_invocation_context].
    unfold metadata_absent in Habsent.
    apply andb_true_iff in Habsent as [Hdirect Hconfig].
    assert (Hfind : find_session_meta inv = PNone).
    { unfold find_session_meta, direct_session_meta.
      assert (Hd : match getattr_or_None (inv_inputs inv) with
                   | PDict raw_inputs => py_dict_get "sessionMetadata" raw_inputs
                   | _ => PNone
                   end = PNone).
      { destruct (getattr_or_None (inv_inputs inv)); try reflexivity.
        apply negb_true_iff, dict_contains_false in Hdirect.
        unfold py_dict_get. rewrite Hdirect. reflexivity. }
      rewrite Hd. cbn [is_None].
      apply scan_sources_absent, possible_sources_absent. exact Hconfig. }
    rewrite Hfind. reflexivity.
Qed.

Lemma before_agent_session_metadata_witness :
  before_agent
    (mkCallbackContext
       (Some (inv_with_inputs [("sessionMetadata", PDict [("user", PStr "u1")])])))
    fresh_world
  = (Ok tt, mkWorld {[ "session_metadata" := PDict [("user", PStr "u1")] ]} [])
  /\ before_agent
       (mkCallbackContext
          (Some (inv_with_run_config [("locale", PStr "en")] [("debug", PBool true)])))
       fresh_world
     = (Ok tt, fresh_world).
Proof.
  split.
  - apply (before_agent_session_metadata
             (inv_with_inputs [("sessionMetadata", PDict [("user", PStr "u1")])])
             fresh_world)
      with (raw_inputs := [("sessionMetadata", PDict [("user", PStr "u1")])]);
      reflexivity.
  - apply (before_agent_session_metadata
             (inv_with_run_config [("locale", PStr "en")] [("debug", PBool true)])
             fresh_world).
    reflexivity.
Defined.

(** C3 as stated fails: a [sessionMetadata] key that holds an empty
    dictionary is present in the direct [inputs], yet nothing is stored; and
    one that holds [None] makes the call store the value found in the run
    configuration instead. *)
Lemma before_agent_counterexample :
  (dict_get "sessionMetadata" [("sessionMetadata", PDict [])] = Some (PDict [])
   /\ before_agent
        (mkCallbackContext (Some (inv_with_inputs [("sessionMetadata", PDict [])])))
        fresh_world
      = (Ok tt, fresh_world)
   /\ state fresh_world !! "session_metadata" = None)
  /\ (dict_get "sessionMetadata" [("sessionMetadata", PNone)] = Some PNone
      /\ before_agent
           (mkCallbackContext
              (Some (inv_with_run_config [("sessionMetadata", PNone)]
                       [("sessionMetadata", PStr "other")])))
           fresh_world
         = (Ok tt, mkWorld {[ "session_metadata" := PStr "other" ]} [])).
Proof. repeat split; vm_compute; reflexivity. Qed.

Lemma lowercase_value_lowered_witness :
  well_formed sample_args = true
  /\ lowered sample_args
       (PDict [("Name", PStr "johndoe");
               ("tags", PList [PStr "a"; PStr "b"]);
               ("codes", PSet [PStr "x"; PInt 7]);
               ("pair", PTuple [PStr "left"; PNone; PBool true]);
               ("nested", PDict [("City", PStr "paris"); ("zip", PInt 75001)])]).
Proof.
  split; [reflexivity |].
  exact (lowercase_value_lowered sample_args eq_refl).
Defined.

(** * Further properties *)

(** ** The request throttle, in every case *)

Lemma rate_limit_no_count (now : Q) (req : LlmRequest) (w : World) (t : pyval) :
  state w !! "timer_start" = Some t ->
  state w !! "request_count" = None ->
  rate_limit_callback now req w = (Raise KeyError, w).
Proof.
  intros Ht Hc.
  unfold rate_limit_callback, mbind, M_bind, bind, state_contains,
    state_getitem, lift.
  cbv beta. rewrite Ht. cbn -[insert]. rewrite Hc. reflexivity.
Qed.

Lemma rate_limit_bad_count (now : Q) (req : LlmRequest) (w : World)
  (t c : pyval) :
  state w !! "timer_start" = Some t ->
  state w !! "request_count" = Some c ->
  as_number c = None ->
  rate_limit_callback now req w = (Raise TypeError, w).
Proof.
  intros Ht Hc Hcn.
  unfold rate_limit_callback, mbind, M_bind, bind, state_contains,
    state_getitem, lift.
  cbv beta. rewrite Ht. cbn -[insert]. rewrite Hc. cbv beta iota.
  unfold py_add at 1. rewrite Hcn. reflexivity.
Qed.

Lemma rate_limit_bad_timer (now : Q) (req : LlmRequest) (w : World)
  (t c : pyval) (cn : number) :
  state w !! "timer_start" = Some t ->
  state w !! "request_count" = Some c ->
  as_number c = Some cn ->
  as_number t = None ->
  rate_limit_callback now req w = (Raise TypeError, w).
Proof.
  intros Ht Hc Hcn Htn.
  unfold rate_limit_callback, mbind, M_bind, bind, state_contains,
    state_getitem, lift.
  cbv beta. rewrite Ht. cbn -[insert]. rewrite Hc. cbv beta iota.
  unfold py_add at 1. rewrite Hcn. cbn -[insert num_add]. rewrite Ht, Htn.
  reflexivity.
Qed.

Lemma rate_limit_cases (now : Q) (req : LlmRequest) (w : World) :
  exists r w',
    throttle_case now w r w'
    /\ rate_limit_callback now req w
       = (match r with
          | Ok _ => Ok (fill_empty_parts req)
          | Raise e => Raise e
          end, w').
Proof.
  destruct (state w !! "timer_start") as [t |] eqn:Ht.
  2: { exists (Ok tt). eexists. split; [apply throttle_fresh; exact Ht |].
       apply rate_limit_first. exact Ht. }
  destruct (state w !! "request_count") as [c |] eqn:Hc.
  2: { exists (Raise KeyError), w. split; [eapply throttle_key_error; eauto |].
       eapply rate_limit_no_count; eauto. }
  destruct (as_number c) as [cn |] eqn:Hcn.
  2: { exists (Raise TypeError), w.
       split; [eapply throttle_type_error; eauto |].
       eapply rate_limit_bad_count; eauto. }
  destruct (as_number t) as [tn |] eqn:Htn.
  2: { exists (Raise TypeError), w.
       split; [eapply throttle_type_error; eauto |].
       eapply rate_limit_bad_timer; eauto. }
  exists (Ok tt). rewrite (rate_limit_next now req w t c tn cn Ht Htn Hc Hcn).
  destruct (over_quota cn) eqn:Hq; eexists; (split; [| reflexivity]).
  - eapply throttle_delayed; eauto.
  - eapply throttle_counted; eauto.
Qed.

(** X1.  A state that has [timer_start] but lacks [request_count] makes the
    call raise [KeyError]; a [request_count] or a [timer_start] that is not
    a number makes it raise [TypeError].  Nothing has been written or slept
    by then. *)
Theorem throttle_malformed_window (now : Q) (req : LlmRequest) (w : World)
  (t : pyval) :
  state w !! "timer_start" = Some t ->
  (state w !! "request_count" = None ->
   rate_limit_callback now req w = (Raise KeyError, w))
  /\ (forall c, state w !! "request_count" = Some c ->
                as_number c = None \/ as_number t = None ->
                rate_limit_callback now req w = (Raise TypeError, w)).
Proof.
  intros Ht. split.
  - intros Hc. exact (rate_limit_no_count now req w t Ht Hc).
  - intros c Hc Hbad. destruct (as_number c) as [cn |] eqn:Hcn.
    + destruct Hbad as [Hbad | Hbad]; [discriminate |].
      exact (rate_limit_bad_timer now req w t c cn Ht Hc Hcn Hbad).
    + exact (rate_limit_bad_count now req w t c Ht Hc Hcn).
Qed.

Lemma throttle_malformed_window_witness :
  rate_limit_callback 5 [] (mkWorld {[ "timer_start" := PFloat 1 ]} [])
  = (Raise KeyError, mkWorld {[ "timer_start" := PFloat 1 ]} [])
  /\ rate_limit_callback 5 []
       (mkWorld (<["request_count" := PStr "3"]> {[ "timer_start" := PFloat 1 ]}) [])
     = (Raise TypeError,
        mkWorld (<["request_count" := PStr "3"]> {[ "timer_start" := PFloat 1 ]}) []).
Proof.
  split.
  - apply (throttle_malformed_window 5 []
             (mkWorld {[ "timer_start" := PFloat 1 ]} []) (PFloat 1));
      reflexivity.
  - apply (throttle_malformed_window 5 []
             (mkWorld (<["request_count" := PStr "3"]>
                         {[ "timer_start" := PFloat 1 ]}) []) (PFloat 1))
      with (c := PStr "3"); [reflexivity | reflexivity | left; reflexivity].
Defined.

Lemma throttle_case_frame (now : Q) (w w' : World) (r : outcome unit)
  (key : string) :
  throttle_case now w r w' ->
  key <> "timer_start" -> key <> "request_count" ->
  state w' !! key = state w !! key.
Proof.
  intros Hcase H1 H2. destruct Hcase; cbn [state];
    try reflexivity; try (apply reset_window_other; assumption).
  apply lookup_insert_ne. congruence.
Qed.

Lemma throttle_case_raise (now : Q) (w w' : World) (e : exn) :
  throttle_case now w (Raise e) w' -> w' = w.
Proof. intros Hcase. inversion Hcase; reflexivity. Qed.

(** X5.  Whatever the outcome, the throttle changes no key of the state
    other than [timer_start] and [request_count]; when it raises, it has
    changed nothing at all. *)
Theorem throttle_frame (now : Q) (req : LlmRequest) (w : World) (key : string) :
  key <> "timer_start" -> key <> "request_count" ->
  state (snd (rate_limit_callback now req w)) !! key = state w !! key
  /\ (forall e, fst (rate_limit_callback now req w) = Raise e ->
                snd (rate_limit_callback now req w) = w).
Proof.
  intros H1 H2. destruct (rate_limit_cases now req w) as (r & w' & Hcase & ->).
  cbn [fst snd]. split.
  - exact (throttle_case_frame now w w' r key Hcase H1 H2).
  - intros e He. destruct r as [[] | e']; [discriminate |].
    exact (throttle_case_raise now w w' e' Hcase).
Qed.

Lemma throttle_frame_witness :
  state (snd (rate_limit_callback 130 []
                (mkWorld (<["customer_profile" := PStr "{}"]>
                            (state (session_world 10))) [])))
    !! "customer_profile"
  = Some (PStr "{}").
Proof.
  destruct (throttle_frame 130 []
              (mkWorld (<["customer_profile" := PStr "{}"]>
                          (state (session_world 10))) [])
              "customer_profile") as [H _]; [discriminate | discriminate |].
  rewrite H. reflexivity.
Defined.

(** X2.  On a call that returns from a state with a window: if the clock
    has not gone back behind [timer_start], the call sleeps at most once
    and for at most 61 seconds; if 61 seconds or more have passed since
    [timer_start], it does not sleep at all. *)
Theorem throttle_sleep_bound (now : Q) (req req' : LlmRequest) (w w' : World)
  (timer_start request_count : number) :
  window w timer_start request_count ->
  rate_limit_callback now req w = (Ok req', w') ->
  ((num_Q timer_start <= now)%Q ->
   slept w' = slept w
   \/ exists d, slept w' = slept w ++ [d] /\ (0 < d)%Q /\ (d <= 61)%Q)
  /\ ((num_Q timer_start + 61 <= now)%Q -> slept w' = slept w).
Proof.
  intros [(t & Ht & Htn) (c & Hc & Hcn)] Hrun.
  rewrite (rate_limit_next now req w t c _ _ Ht Htn Hc Hcn) in Hrun.
  destruct (over_quota request_count).
  - cbv zeta in Hrun. injection Hrun as _ <-. cbn [slept].
    destruct (Qle_bool (60 - (now - num_Q timer_start) + 1) 0) eqn:E.
    + split; [left |]; reflexivity.
    + split.
      * intros Hmono. right. eexists. split; [reflexivity |].
        assert (Hpos : ~ (60 - (now - num_Q timer_start) + 1 <= 0)%Q).
        { intros Hle. apply Qle_bool_iff in Hle. congruence. }
        split; lra.
      * intros Hold. exfalso.
        assert (Hle : (60 - (now - num_Q timer_start) + 1 <= 0)%Q) by lra.
        apply Qle_bool_iff in Hle. congruence.
  - injection Hrun as _ <-. cbn [slept]. split; [left |]; reflexivity.
Qed.

Lemma throttle_sleep_bound_witness :
  slept (snd (rate_limit_callback 130 [] (session_world 10))) = []
  \/ exists d,
       slept (snd (rate_limit_callback 130 [] (session_world 10))) = [] ++ [d]
       /\ (0 < d)%Q /\ (d <= 61)%Q.
Proof.
  apply (throttle_sleep_bound 130 [] [] (session_world 10)
           (snd (rate_limit_callback 130 [] (session_world 10)))
           (NFloat 100) (NInt 10) (session_world_window 10)).
  - vm_compute. reflexivity.
  - discriminate.
Defined.

(** ** The throttle over a run of calls *)

Lemma Qle_bool_inject_Z (a b : Z) :
  Qle_bool (inject_Z a) (inject_Z b) = (a <=? b).
Proof. unfold Qle_bool. cbn. rewrite !Z.mul_1_r. reflexivity. Qed.

Lemma over_quota_int (n : Z) : over_quota (NInt n) = negb (n + 1 <=? 10).
Proof.
  unfold over_quota, incremented, num_leb. cbn [num_add num_Q].
  rewrite Qle_bool_inject_Z. reflexivity.
Qed.

Lemma rate_limit_int_window (now : Q) (req : LlmRequest) (w : World)
  (t : Q) (n : Z) :
  int_window w t n ->
  rate_limit_callback now req w
  = if n + 1 <=? 10 then
      (Ok (fill_empty_parts req),
       mkWorld (<["request_count" := PInt (n + 1)]> (state w)) (slept w))
    else
      (Ok (fill_empty_parts req),
       mkWorld (reset_window now w)
         (if Qle_bool (60 - (now - t) + 1) 0 then slept w
          else slept w ++ [(60 - (now - t) + 1)%Q])).
Proof.
  intros [Ht Hc].
  rewrite (rate_limit_next now req w _ _ (NFloat t) (NInt n) Ht eq_refl Hc eq_refl).
  rewrite over_quota_int. destruct (n + 1 <=? 10); reflexivity.
Qed.

Lemma bind_run {A B : Type} (m : M A) (k : M B) (w w' : World) (a : A) :
  m w = (Ok a, w') -> (m;; k) w = k w'.
Proof. intros H. unfold mbind, M_bind, bind. rewrite H. reflexivity. Qed.

Lemma calls_under_quota (calls : list (Q * LlmRequest)) (w : World)
  (t : Q) (n : Z) :
  int_window w t n ->
  n + Z.of_nat (length calls) <= 10 ->
  exists w',
    rate_limit_calls calls w = (Ok tt, w')
    /\ int_window w' t (n + Z.of_nat (length calls))
    /\ slept w' = slept w
    /\ (forall key, key <> "request_count" -> state w' !! key = state w !! key).
Proof.
  revert w n. induction calls as [| [now req] calls IH]; intros w n Hwin Hle.
  - exists w. cbn [length Z.of_nat]. rewrite Z.add_0_r. repeat split; try apply Hwin.
  - cbn [length] in *. rewrite Nat2Z.inj_succ in *.
    pose proof (rate_limit_int_window now req w t n Hwin) as Hstep.
    destruct (Z.leb_spec (n + 1) 10) as [_ | Hgt]; [| lia].
    set (w1 := mkWorld (<["request_count" := PInt (n + 1)]> (state w)) (slept w)) in *.
    assert (Hwin1 : int_window w1 t (n + 1)).
    { destruct Hwin as [Ht Hc]. split; cbn [state w1].
      - rewrite lookup_insert_ne by discriminate. exact Ht.
      - apply lookup_insert_eq. }
    destruct (IH w1 (n + 1) Hwin1 ltac:(lia)) as (w' & Hrun & Hwin' & Hs & Hframe).
    exists w'. split; [| split; [| split]].
    + cbn [rate_limit_calls]. rewrite (bind_run _ _ _ _ _ Hstep). exact Hrun.
    + replace (n + Z.succ (Z.of_nat (length calls)))
        with (n + 1 + Z.of_nat (length calls)) by lia. exact Hwin'.
    + rewrite Hs. reflexivity.
    + intros key Hkey. rewrite (Hframe key Hkey). cbn [state w1].
      apply lookup_insert_ne. congruence.
Qed.

Lemma reset_int_window (now : Q) (w : World) (sl : list Q) :
  int_window (mkWorld (reset_window now w) sl) now 1.
Proof. split; [apply reset_window_timer | apply reset_window_count]. Qed.

(** X3.  In a fresh session the first ten calls, whenever they come, all
    return without sleeping: [timer_start] holds the time of the first
    call, [request_count] the number of calls, and no other key has
    changed. *)
Theorem throttle_first_ten (now : Q) (req : LlmRequest)
  (rest : list (Q * LlmRequest)) (w : World) :
  state w !! "timer_start" = None ->
  (length rest < 10)%nat ->
  exists w',
    rate_limit_calls ((now, req) :: rest) w = (Ok tt, w')
    /\ slept w' = slept w
    /\ state w' !! "timer_start" = Some (PFloat now)
    /\ state w' !! "request_count" = Some (PInt (1 + Z.of_nat (length rest)))
    /\ (forall key, key <> "timer_start" -> key <> "request_count" ->
                    state w' !! key = state w !! key).
Proof.
  intros Hfresh Hlen.
  pose proof (rate_limit_first now req w Hfresh) as Hstep.
  destruct (calls_under_quota rest _ now 1 (reset_int_window now w (slept w))
              ltac:(lia)) as (w' & Hrun & [Ht Hc] & Hs & Hframe).
  exists w'. split; [| split; [| split; [| split]]].
  - cbn [rate_limit_calls]. rewrite (bind_run _ _ _ _ _ Hstep). exact Hrun.
  - exact Hs.
  - exact Ht.
  - exact Hc.
  - intros key H1 H2. rewrite (Hframe key H2). cbn [state].
    apply reset_window_other; assumption.
Qed.

Lemma throttle_first_ten_witness :
  exists w',
    rate_limit_calls [(100, []); (101, []); (250, [])]%Q fresh_world = (Ok tt, w')
    /\ slept w' = []
    /\ state w' !! "timer_start" = Some (PFloat 100)
    /\ state w' !! "request_count" = Some (PInt 3).
Proof.
  destruct (throttle_first_ten 100 [] [(101, []); (250, [])]%Q fresh_world)
    as (w' & H1 & H2 & H3 & H4 & _); [reflexivity | cbn; lia |].
  exists w'. repeat split; assumption.
Defined.

Lemma calls_cycle (calls : list (Q * LlmRequest)) (w : World) (t : Q) (n : Z) :
  int_window w t n ->
  1 <= n <= 10 ->
  exists w' t' ds,
    rate_limit_calls calls w = (Ok tt, w')
    /\ int_window w' t' ((n - 1 + Z.of_nat (length calls)) mod 10 + 1)
    /\ slept w' = slept w ++ ds
    /\ Z.of_nat (length ds) <= (n - 1 + Z.of_nat (length calls)) / 10.
Proof.
  revert w t n. induction calls as [| [now req] calls IH]; intros w t n Hwin Hn.
  - exists w, t, []. cbn [length Z.of_nat rate_limit_calls].
    rewrite Z.add_0_r, app_nil_r, Z.mod_small by lia.
    replace (n - 1 + 1) with n by lia.
    repeat split; try apply Hwin. apply Z.div_pos; lia.
  - cbn [length]. rewrite Nat2Z.inj_succ.
    pose proof (rate_limit_int_window now req w t n Hwin) as Hstep.
    destruct (Z.leb_spec (n + 1) 10) as [Hle | Hgt].
    + set (w1 := mkWorld (<["request_count" := PInt (n + 1)]> (state w)) (slept w)) in *.
      assert (Hwin1 : int_window w1 t (n + 1)).
      { destruct Hwin as [Ht Hc]. split; cbn [state w1].
        - rewrite lookup_insert_ne by discriminate. exact Ht.
        - apply lookup_insert_eq. }
      destruct (IH w1 t (n + 1) Hwin1 ltac:(lia))
        as (w' & t' & ds & Hrun & Hwin' & Hs & Hds).
      exists w', t', ds.
      replace (n - 1 + Z.succ (Z.of_nat (length calls)))
        with (n + 1 - 1 + Z.of_nat (length calls)) by lia.
      split; [| split; [exact Hwin' | split; [exact Hs | exact Hds]]].
      cbn [rate_limit_calls]. rewrite (bind_run _ _ _ _ _ Hstep). exact Hrun.
    + assert (n = 10) by lia. subst n.
      set (sl := if Qle_bool (60 - (now - t) + 1) 0 then slept w
                 else slept w ++ [(60 - (now - t) + 1)%Q]) in *.
      destruct (IH _ now 1 (reset_int_window now w sl) ltac:(lia))
        as (w' & t' & ds & Hrun & Hwin' & Hs & Hds).
      cbn [slept] in Hs.
      exists w', t',
        ((if Qle_bool (60 - (now - t) + 1) 0 then []
          else [(60 - (now - t) + 1)%Q]) ++ ds).
      split; [| split; [| split]].
      * cbn [rate_limit_calls]. rewrite (bind_run _ _ _ _ _ Hstep). exact Hrun.
      * replace ((10 - 1 + Z.succ (Z.of_nat (length calls))) mod 10)
          with ((1 - 1 + Z.of_nat (length calls)) mod 10); [exact Hwin' |].
        replace (10 - 1 + Z.succ (Z.of_nat (length calls)))
          with (1 - 1 + Z.of_nat (length calls) + 1 * 10) by lia.
        rewrite Z.mod_add by lia. reflexivity.
      * rewrite Hs. unfold sl. destruct (Qle_bool _ _);
          [reflexivity | rewrite <- app_assoc; reflexivity].
      * replace (10 - 1 + Z.succ (Z.of_nat (length calls)))
          with (1 - 1 + Z.of_nat (length calls) + 1 * 10) by lia.
        rewrite Z.div_add by lia. rewrite length_app, Nat2Z.inj_add.
        destruct (Qle_bool _ _); cbn [length Z.of_nat]; lia.
Qed.

(** X4.  In a fresh session every call returns, and after [k] calls
    [request_count] is [(k - 1) mod 10 + 1]: it runs from 1 to 10 and is
    back at 1 after the 11th, 21st, ... call.  At most one sleep has
    been taken for each full round of ten calls before the last call. *)
Theorem throttle_count_cycle (now : Q) (req : LlmRequest)
  (rest : list (Q * LlmRequest)) (w : World) :
  state w !! "timer_start" = None ->
  exists w' ds,
    rate_limit_calls ((now, req) :: rest) w = (Ok tt, w')
    /\ state w' !! "request_count"
       = Some (PInt (Z.of_nat (length rest) mod 10 + 1))
    /\ slept w' = slept w ++ ds
    /\ Z.of_nat (length ds) <= Z.of_nat (length rest) / 10.
Proof.
  intros Hfresh.
  pose proof (rate_limit_first now req w Hfresh) as Hstep.
  destruct (calls_cycle rest _ now 1 (reset_int_window now w (slept w))
              ltac:(lia)) as (w' & t' & ds & Hrun & [_ Hc] & Hs & Hds).
  exists w', ds. replace (1 - 1 + Z.of_nat (length rest))
    with (Z.of_nat (length rest)) in * by lia.
  split; [| split; [exact Hc | split; [exact Hs | exact Hds]]].
  cbn [rate_limit_calls]. rewrite (bind_run _ _ _ _ _ Hstep). exact Hrun.
Qed.

Lemma throttle_count_cycle_witness :
  exists w' ds,
    rate_limit_calls
      (map (fun now => (inject_Z now, [])) [1; 2; 3; 4; 5; 6; 7; 8; 9; 10; 11; 12])
      fresh_world
    = (Ok tt, w')
    /\ state w' !! "request_count" = Some (PInt 2)
    /\ slept w' = ds
    /\ Z.of_nat (length ds) <= 1.
Proof.
  destruct (throttle_count_cycle (inject_Z 1) []
              (map (fun now => (inject_Z now, []))
                 [2; 3; 4; 5; 6; 7; 8; 9; 10; 11; 12]) fresh_world)
    as (w' & ds & H1 & H2 & H3 & H4); [reflexivity |].
  exists w', ds. repeat split; assumption.
Defined.

(** ** The rewrite of the request *)

Lemma fill_empty_text_filled (part : Part) : filled part (fill_empty_text part).
Proof.
  unfold filled, fill_empty_text. destruct part as [[[| c s] |]]; cbn.
  - left. split; reflexivity.
  - right. split; [discriminate | reflexivity].
  - right. split; [discriminate | reflexivity].
Qed.

Lemma fill_empty_text_not_empty (part : Part) :
  text (fill_empty_text part) <> Some EmptyString.
Proof.
  unfold fill_empty_text. destruct part as [[[| c s] |]]; cbn; discriminate.
Qed.

Lemma rate_limit_returns (now : Q) (req req' : LlmRequest) (w w' : World) :
  rate_limit_callback now req w = (Ok req', w') -> req' = fill_empty_parts req.
Proof.
  intros H. destruct (rate_limit_cases now req w) as (r & w1 & _ & Hrun).
  rewrite Hrun in H. destruct r; congruence.
Qed.

(** X6.  When the throttle returns, the request has the contents and parts
    it had, in the same order; each part whose text was empty now has a
    single space as text, every other part is untouched, and no part with
    an empty text is left. *)
Theorem request_texts_filled (now : Q) (req req' : LlmRequest) (w w' : World) :
  rate_limit_callback now req w = (Ok req', w') ->
  Forall2 (Forall2 filled) req req'
  /\ Forall (Forall (fun part => text part <> Some EmptyString)) req'.
Proof.
  intros H. apply rate_limit_returns in H. subst req'.
  unfold fill_empty_parts. split.
  - induction req as [| content req IH]; cbn; constructor; [| exact IH].
    induction content as [| part content IHc]; cbn; constructor;
      [apply fill_empty_text_filled | exact IHc].
  - induction req as [| content req IH]; cbn; constructor; [| exact IH].
    induction content as [| part content IHc]; cbn; constructor;
      [apply fill_empty_text_not_empty | exact IHc].
Qed.

Lemma request_texts_filled_witness :
  Forall2 (Forall2 filled)
    [[mkPart (Some EmptyString); mkPart (Some "hi")]; [mkPart None]]
    [[mkPart (Some " "); mkPart (Some "hi")]; [mkPart None]].
Proof.
  apply (request_texts_filled 100
           [[mkPart (Some EmptyString); mkPart (Some "hi")]; [mkPart None]]
           [[mkPart (Some " "); mkPart (Some "hi")]; [mkPart None]]
           fresh_world
           (snd (rate_limit_callback 100
                   [[mkPart (Some EmptyString); mkPart (Some "hi")]; [mkPart None]]
                   fresh_world))).
  vm_compute. reflexivity.
Defined.

(** ** The validator and the guard, further *)

Section GuardFurther.
Variable json_loads : string -> option pyval.
Variable py_repr : pyval -> string.

Abbreviation validate := (validate_customer_id json_loads py_repr).
Abbreviation guard := (before_tool json_loads py_repr).
Abbreviation validate_case := (validate_case json_loads py_repr).
Abbreviation customer_check_passes :=
  (customer_check_passes json_loads py_repr).


(** X8.  The answer "Customer profile couldn't be parsed" is given exactly
    when the bound profile is a string that is not valid JSON: a missing
    [customer_id] key or a profile of another shape never leads to it. *)
Theorem validate_unparsed_iff (customer_id : pyval) (w : World) :
  fst (validate customer_id w)
  = Ok (false, "Customer profile couldn't be parsed. Please reload the customer data.")
  <-> exists s,
        state w !! "customer_profile" = Some (PStr s) /\ json_loads s = None.
Proof.
  destruct (validate_cases json_loads py_repr customer_id w) as (r & Hr & Hcase).
  rewrite Hr. cbn [fst]. split.
  - intros ->. inversion Hcase; subst; eauto; discriminate.
  - intros (s & Hp & Hj).
    rewrite (validate_undecodable json_loads py_repr customer_id s w Hp Hj) in Hr.
    injection Hr as <-. reflexivity.
Qed.

Lemma validate_depends (customer_id : pyval) (w1 w2 : World) :
  state w1 !! "customer_profile" = state w2 !! "customer_profile" ->
  fst (validate customer_id w1) = fst (validate customer_id w2).
Proof.
  intros Heq.
  destruct (validate_cases json_loads py_repr customer_id w1) as (r & Hr & Hcase).
  rewrite Hr. cbn [fst]. symmetry.
  destruct Hcase as [H | p H Hns | s H Hj | s data H Hj Hd | s d H Hj E | s d H Hj E];
    rewrite Heq in H.
  - rewrite (validate_unbound json_loads py_repr customer_id w2 H). reflexivity.
  - rewrite (validate_not_string json_loads py_repr customer_id p w2 H Hns).
    reflexivity.
  - rewrite (validate_undecodable json_loads py_repr customer_id s w2 H Hj).
    reflexivity.
  - rewrite (validate_not_object json_loads py_repr customer_id data s w2 H Hj Hd).
    reflexivity.
  - rewrite (validate_object json_loads py_repr customer_id s d w2 H Hj), E.
    reflexivity.
  - rewrite (validate_object json_loads py_repr customer_id s d w2 H Hj), E.
    reflexivity.
Qed.

(** X9.  The callbacks do not disturb the validator: its answer for a
    candidate is the same after a call of the throttle, and the same after a
    call of [before_agent], as it was before that call. *)
Theorem validator_unaffected (customer_id : pyval) (now : Q) (req : LlmRequest)
  (callback_context : CallbackContext) (w : World) :
  fst (validate customer_id (snd (rate_limit_callback now req w)))
  = fst (validate customer_id w)
  /\ fst (validate customer_id (snd (before_agent callback_context w)))
     = fst (validate customer_id w).
Proof.
  split; apply validate_depends.
  - destruct (rate_limit_cases now req w) as (r & w' & Hcase & ->). cbn [snd].
    apply (throttle_case_frame now w w' r _ Hcase); discriminate.
  - rewrite before_agent_run. cbn [snd].
    destruct (_invocation_context callback_context) as [inv |]; [| reflexivity].
    destruct (py_truthy (find_session_meta inv)); [| reflexivity].
    cbn [state]. apply lookup_insert_ne. discriminate.
Qed.

Lemma guard_vetoed (tool_name : string) (args : list (string * pyval))
  (w : World) (customer_id : pyval) (err : string) :
  dict_get "customer_id" args = Some customer_id ->
  fst (validate customer_id w) = Ok (false, err) ->
  guard tool_name args w = (Ok (mkGuardResult (PStr err) args), w).
Proof.
  intros Hc Hv. unfold before_tool. rewrite Hc.
  unfold mbind, M_bind, bind.
  rewrite (validate_world json_loads py_repr customer_id w), Hv. reflexivity.
Qed.

Lemma guard_raised (tool_name : string) (args : list (string * pyval))
  (w : World) (customer_id : pyval) (e : exn) :
  dict_get "customer_id" args = Some customer_id ->
  fst (validate customer_id w) = Raise e ->
  guard tool_name args w = (Raise e, w).
Proof.
  intros Hc Hv. unfold before_tool. rewrite Hc.
  unfold mbind, M_bind, bind.
  rewrite (validate_world json_loads py_repr customer_id w), Hv. reflexivity.
Qed.

(** X13.  A [customer_id] argument that differs from the id of the bound
    profile, or that comes without a bound profile, vetoes the call for
    every tool: the guard returns the validator's message and no rule is
    looked at. *)
Theorem guard_customer_veto (tool_name : string) (args : list (string * pyval))
  (w : World) (customer_id : pyval) :
  dict_get "customer_id" args = Some customer_id ->
  (state w !! "customer_profile" = None ->
   guard tool_name args w
   = (Ok (mkGuardResult
            (PStr "No customer profile selected. Please select a profile.")
            args), w))
  /\ (forall s d,
        state w !! "customer_profile" = Some (PStr s) ->
        json_loads s = Some (PDict d) ->
        py_eq customer_id (py_dict_get "customer_id" d) = false ->
        guard tool_name args w
        = (Ok (mkGuardResult
                 (PStr ("You cannot use the tool with customer_id "
                          +:+ py_str py_repr customer_id +:+ ", only for "
                          +:+ py_str py_repr (py_dict_get "customer_id" d)
                          +:+ "."))
                 args), w)).
Proof.
  intros Hc. split.
  - intros Hp. apply (guard_vetoed tool_name args w customer_id _ Hc).
    rewrite (validate_unbound json_loads py_repr customer_id w Hp). reflexivity.
  - intros s d Hp Hj E. apply (guard_vetoed tool_name args w customer_id _ Hc).
    rewrite (validate_object json_loads py_repr customer_id s d w Hp Hj), E.
    reflexivity.
Qed.

(** X14.  The exceptions of the validator leave the guard as they are: with
    a [customer_id] argument, a bound profile that is not a string makes
    [before_tool] raise [TypeError], and one that decodes to something other
    than an object makes it raise [AttributeError], for every tool. *)
Theorem guard_validator_exception (tool_name : string)
  (args : list (string * pyval)) (w : World) (customer_id profile : pyval) :
  dict_get "customer_id" args = Some customer_id ->
  state w !! "customer_profile" = Some profile ->
  ((forall s, profile <> PStr s) ->
   guard tool_name args w = (Raise TypeError, w))
  /\ (forall s data,
        profile = PStr s -> json_loads s = Some data -> is_dict data = false ->
        guard tool_name args w = (Raise AttributeError, w)).
Proof.
  intros Hc Hp. split.
  - intros Hns. apply (guard_raised tool_name args w customer_id _ Hc).
    rewrite (validate_not_string json_loads py_repr customer_id profile w Hp Hns).
    reflexivity.
  - intros s data -> Hj Hd. apply (guard_raised tool_name args w customer_id _ Hc).
    rewrite (validate_not_object json_loads py_repr customer_id data s w Hp Hj Hd).
    reflexivity.
Qed.

(** The guard once the customer check has passed. *)
Lemma guard_checked (tool_name : string) (args : list (string * pyval))
  (w : World) :
  customer_check_passes args w ->
  let cart :=
    (Ok (mkGuardResult
           (if String.eqb tool_name "modify_cart"
               && is_True (py_dict_get "items_added" args)
               && is_True (py_dict_get "items_removed" args)
            then cart_response else PNone) args), w) in
  guard tool_name args w
  = if String.eqb tool_name "sync_ask_for_approval"
       && py_truthy (py_dict_get "value" args)
    then
      match py_le (py_dict_get "value" args) (PInt 10) with
      | Ok true => (Ok (mkGuardResult approval_response args), w)
      | Ok false => cart
      | Raise e => (Raise e, w)
      end
    else cart.
Proof.
  intros Hpass cart. subst cart.
  unfold before_tool, customer_check_passes in *.
  destruct (dict_get "customer_id" args) as [customer_id |];
    unfold mbind, M_bind, bind, mret, M_ret, ret, lift;
    [rewrite (validate_world json_loads py_repr customer_id w), Hpass;
     cbv beta iota |];
    (destruct (String.eqb tool_name "sync_ask_for_approval"); cbn [andb];
     [destruct (py_truthy (py_dict_get "value" args));
      [destruct (py_le _ _) as [[|] |]; try reflexivity |] |];
     (destruct (String.eqb tool_name "modify_cart"); cbn [andb];
      [| reflexivity]);
     destruct (is_True _ && is_True _); reflexivity).
Qed.

(** X15.  For the tool [modify_cart] and arguments that pass the customer
    check, the guard answers with the fixed confirmation exactly when
    [items_added] and [items_removed] are both the boolean [True]; with any
    other value of either (absent, [False], 1, a string) it returns [None]. *)
Theorem guard_cart_rule (args : list (string * pyval)) (w : World) :
  customer_check_passes args w ->
  (dict_get "items_added" args = Some (PBool true) ->
   dict_get "items_removed" args = Some (PBool true) ->
   guard "modify_cart" args w
   = (Ok (mkGuardResult
            (PDict [("result",
                     PStr "I have added and removed the requested items.")])
            args), w))
  /\ (dict_get "items_added" args <> Some (PBool true)
      \/ dict_get "items_removed" args <> Some (PBool true) ->
      guard "modify_cart" args w = (Ok (mkGuardResult PNone args), w)).
Proof.
  intros Hpass. rewrite (guard_checked "modify_cart" args w Hpass).
  cbn [String.eqb Ascii.eqb Bool.eqb andb]. unfold py_dict_get. split.
  - intros -> ->. reflexivity.
  - intros Hnot.
    assert (E : is_True match dict_get "items_added" args with
                        | Some v => v | None => PNone end
                && is_True match dict_get "items_removed" args with
                           | Some v => v | None => PNone end = false).
    { destruct (dict_get "items_added" args) as [[| [|] | | | | | | |] |];
        try reflexivity.
      destruct (dict_get "items_removed" args) as [[| [|] | | | | | | |] |];
        try reflexivity.
      destruct Hnot as [Hnot | Hnot]; exfalso; apply Hnot; reflexivity. }
    rewrite E. reflexivity.
Qed.

(** X16.  For a tool that is neither [sync_ask_for_approval] nor
    [modify_cart], arguments that pass the customer check are let through:
    the guard returns [None], whatever else the arguments hold. *)
Theorem guard_other_tools (tool_name : string) (args : list (string * pyval))
  (w : World) :
  customer_check_passes args w ->
  tool_name <> "sync_ask_for_approval" ->
  tool_name <> "modify_cart" ->
  guard tool_name args w = (Ok (mkGuardResult PNone args), w).
Proof.
  intros Hpass H1 H2. rewrite (guard_checked tool_name args w Hpass).
  apply String.eqb_neq in H1, H2. rewrite H1, H2. reflexivity.
Qed.

(** X17.  For the tool [sync_ask_for_approval] and arguments that pass the
    customer check, a [value] that is truthy but not a number (a non-empty
    string or list, say) makes the guard raise [TypeError]. *)
Theorem guard_amount_type_error (args : list (string * pyval)) (w : World)
  (amount : pyval) :
  customer_check_passes args w ->
  dict_get "value" args = Some amount ->
  py_truthy amount = true ->
  as_number amount = None ->
  guard "sync_ask_for_approval" args w = (Raise TypeError, w).
Proof.
  intros Hpass Hv Ht Hn. rewrite (guard_checked _ args w Hpass).
  unfold py_dict_get. rewrite Hv, Ht. cbn [String.eqb Ascii.eqb Bool.eqb andb].
  unfold py_le. rewrite Hn. reflexivity.
Qed.

Lemma validate_verdicts (customer_id : pyval) (w : World) :
  fst (validate customer_id w) = Ok (true, EmptyString)
  \/ (exists err, fst (validate customer_id w) = Ok (false, err))
  \/ (exists e, fst (validate customer_id w) = Raise e).
Proof.
  destruct (validate_cases json_loads py_repr customer_id w) as (r & Hr & Hcase).
  rewrite Hr. cbn [fst]. destruct Hcase; eauto.
Qed.

(** X21.  The guard only reads: whatever it returns or raises, the world
    is as it was before the call, and whenever it returns, [args] holds
    what it held before the call. *)
Theorem guard_read_only (tool_name : string) (args : list (string * pyval))
  (w : World) :
  snd (guard tool_name args w) = w
  /\ (forall r, fst (guard tool_name args w) = Ok r -> args_after r = args).
Proof.
  assert (Hchecked :
    customer_check_passes args w ->
    snd (guard tool_name args w) = w
    /\ (forall r, fst (guard tool_name args w) = Ok r -> args_after r = args)).
  { intros Hpass. rewrite (guard_checked tool_name args w Hpass).
    destruct (String.eqb tool_name "sync_ask_for_approval"
              && py_truthy (py_dict_get "value" args)).
    - destruct (py_le _ _) as [[|] |]; cbn [fst snd];
        (split; [reflexivity | intros r [= <-]; reflexivity]).
    - cbn [fst snd]. split; [reflexivity | intros r [= <-]; reflexivity]. }
  destruct (dict_get "customer_id" args) as [customer_id |] eqn:Hc.
  - destruct (validate_verdicts customer_id w) as [Hv | [[err Hv] | [e Hv]]].
    + apply Hchecked. unfold customer_check_passes. rewrite Hc. exact Hv.
    + rewrite (guard_vetoed tool_name args w customer_id err Hc Hv).
      cbn [fst snd]. split; [reflexivity | intros r [= <-]; reflexivity].
    + rewrite (guard_raised tool_name args w customer_id e Hc Hv).
      cbn [fst snd]. split; [reflexivity | discriminate].
  - apply Hchecked. unfold customer_check_passes. rewrite Hc. exact I.
Qed.

End GuardFurther.

Lemma guard_customer_veto_witness :
  before_tool Json.json_decode Json.repr "sync_ask_for_approval"
    [("customer_id", PStr "7"); ("value", PInt 5)]
    (profile_world (PStr (profile_of "42")))
  = (Ok (mkGuardResult
           (PStr "You cannot use the tool with customer_id 7, only for 42.")
           [("customer_id", PStr "7"); ("value", PInt 5)]),
     profile_world (PStr (profile_of "42")))
  /\ before_tool Json.json_decode Json.repr "modify_cart"
       [("customer_id", PStr "7")] fresh_world
     = (Ok (mkGuardResult
              (PStr "No customer profile selected. Please select a profile.")
              [("customer_id", PStr "7")]), fresh_world).
Proof.
  split.
  - apply (guard_customer_veto Json.json_decode Json.repr "sync_ask_for_approval"
             [("customer_id", PStr "7"); ("value", PInt 5)]
             (profile_world (PStr (profile_of "42"))) (PStr "7") eq_refl)
      with (s := profile_of "42") (d := [("customer_id", PStr "42")]);
      reflexivity.
  - apply (guard_customer_veto Json.json_decode Json.repr "modify_cart"
             [("customer_id", PStr "7")] fresh_world (PStr "7") eq_refl).
    reflexivity.
Defined.

Lemma guard_validator_exception_witness :
  before_tool Json.json_decode Json.repr "get_weather"
    [("customer_id", PStr "7")] (profile_world (PStr "[1]"))
  = (Raise AttributeError, profile_world (PStr "[1]"))
  /\ before_tool Json.json_decode Json.repr "get_weather"
       [("customer_id", PStr "7")] (profile_world (PInt 42))
     = (Raise TypeError, profile_world (PInt 42)).
Proof.
  split.
  - apply (guard_validator_exception Json.json_decode Json.repr "get_weather"
             [("customer_id", PStr "7")] (profile_world (PStr "[1]"))
             (PStr "7") (PStr "[1]") eq_refl eq_refl)
      with (s := "[1]") (data := PList [PInt 1]); reflexivity.
  - apply (guard_validator_exception Json.json_decode Json.repr "get_weather"
             [("customer_id", PStr "7")] (profile_world (PInt 42))
             (PStr "7") (PInt 42) eq_refl eq_refl).
    discriminate.
Defined.

Lemma guard_cart_rule_witness :
  before_tool Json.json_decode Json.repr "modify_cart"
    [("items_added", PBool true); ("items_removed", PBool true)] fresh_world
  = (Ok (mkGuardResult cart_response
           [("items_added", PBool true); ("items_removed", PBool true)]),
     fresh_world)
  /\ before_tool Json.json_decode Json.repr "modify_cart"
       [("items_added", PInt 1); ("items_removed", PBool true)] fresh_world
     = (Ok (mkGuardResult PNone
              [("items_added", PInt 1); ("items_removed", PBool true)]),
        fresh_world).
Proof.
  split.
  - apply (guard_cart_rule Json.json_decode Json.repr
             [("items_added", PBool true); ("items_removed", PBool true)]
             fresh_world I); reflexivity.
  - apply (guard_cart_rule Json.json_decode Json.repr
             [("items_added", PInt 1); ("items_removed", PBool true)]
             fresh_world I).
    left. discriminate.
Defined.

Lemma guard_other_tools_witness :
  before_tool Json.json_decode Json.repr "get_weather"
    [("value", PStr "Paris"); ("items_added", PBool true)] fresh_world
  = (Ok (mkGuardResult PNone
           [("value", PStr "Paris"); ("items_added", PBool true)]),
     fresh_world).
Proof.
  apply (guard_other_tools Json.json_decode Json.repr "get_weather"
           [("value", PStr "Paris"); ("items_added", PBool true)] fresh_world I);
    discriminate.
Defined.

Lemma guard_amount_type_error_witness :
  before_tool Json.json_decode Json.repr "sync_ask_for_approval"
    [("value", PStr "5")] fresh_world
  = (Raise TypeError, fresh_world).
Proof.
  apply (guard_amount_type_error Json.json_decode Json.repr
           [("value", PStr "5")] fresh_world (PStr "5") I); reflexivity.
Defined.

(** ** [after_tool] *)

Lemma response_has_status_run (tool_response : pyval) (expected : string)
  (w : World) :
  response_has_status tool_response expected w
  = (if py_truthy tool_response && negb (is_dict tool_response)
     then Raise AttributeError
     else Ok (py_truthy tool_response
              && match tool_response with
                 | PDict d => py_eq (py_dict_get "status" d) (PStr expected)
                 | _ => false
                 end), w).
Proof.
  unfold response_has_status.
  destruct (py_truthy tool_response) eqn:Ht; [| reflexivity].
  destruct tool_response; try reflexivity.
Qed.

(** X18.  [after_tool] never replaces the response of the tool and never
    touches the world: for a tool it does not watch, or a response that is
    a dictionary or falsy, it returns [None].  For a watched tool with a
    truthy response that is not a dictionary it raises [AttributeError]. *)
Theorem after_tool_run (tool_name : string) (args : list (string * pyval))
  (tool_response : pyval) (w : World) :
  after_tool tool_name args tool_response w
  = (if watched_tool tool_name && py_truthy tool_response
        && negb (is_dict tool_response)
     then Raise AttributeError
     else Ok PNone, w).
Proof.
  unfold after_tool, watched_tool, mbind, M_bind, bind, mret, M_ret, ret.
  destruct (String.eqb tool_name "sync_ask_for_approval");
    destruct (String.eqb tool_name "approve_discount"); cbn [orb andb];
    cbv beta iota; rewrite ?response_has_status_run;
    destruct (py_truthy tool_response && negb (is_dict tool_response)) eqn:E;
    cbv beta iota; rewrite ?response_has_status_run, ?E; reflexivity.
Qed.

(** ** The session-metadata extractor, further *)

(** X19.  For every callback context [before_agent] returns normally and
    has not slept; it changes no key of the state other than
    [session_metadata], and that key either keeps its entry or holds a
    truthy value afterwards.  Without an invocation context nothing
    changes. *)
Theorem before_agent_frame (callback_context : CallbackContext) (w : World) :
  exists w',
    before_agent callback_context w = (Ok tt, w')
    /\ slept w' = slept w
    /\ (forall key, key <> "session_metadata" ->
                    state w' !! key = state w !! key)
    /\ (state w' !! "session_metadata" = state w !! "session_metadata"
        \/ exists v, state w' !! "session_metadata" = Some v
                     /\ py_truthy v = true)
    /\ (_invocation_context callback_context = None -> w' = w).
Proof.
  eexists. split; [apply before_agent_run |].
  destruct (_invocation_context callback_context) as [inv |].
  2: { repeat split; auto. }
  destruct (py_truthy (find_session_meta inv)) eqn:E.
  - cbn [state slept]. split; [reflexivity |]. split; [| split].
    + intros key Hkey. apply lookup_insert_ne. congruence.
    + right. eexists. split; [apply lookup_insert_eq | exact E].
    + discriminate.
  - repeat split; auto.
Qed.

Lemma absent_in_source_meta (source : list (string * pyval)) :
  absent_in source = true -> source_meta source = None.
Proof.
  unfold absent_in, source_meta. intros H.
  apply andb_true_iff in H as [Htop Hnested].
  apply negb_true_iff, dict_contains_false in Htop. rewrite Htop.
  destruct (py_dict_get "inputs" source); try reflexivity.
  apply negb_true_iff, dict_contains_false in Hnested. exact Hnested.
Qed.

Lemma scan_sources_source_meta (source : list (string * pyval))
  (rest : list (list (string * pyval))) :
  scan_sources (source :: rest)
  = match source_meta source with
    | Some v => v
    | None => scan_sources rest
    end.
Proof.
  cbn [scan_sources]. unfold source_meta.
  destruct (dict_get "sessionMetadata" source); [reflexivity |].
  destruct (py_dict_get "inputs" source); try reflexivity.
Qed.

Lemma scan_sources_first (pre post : list (list (string * pyval)))
  (source : list (string * pyval)) (v : pyval) :
  forallb absent_in pre = true ->
  source_meta source = Some v ->
  scan_sources (pre ++ source :: post) = v.
Proof.
  intros Hpre Hsrc. induction pre as [| p pre IH].
  - cbn [app]. rewrite scan_sources_source_meta, Hsrc. reflexivity.
  - cbn [forallb] in Hpre. apply andb_true_iff in Hpre as [Hp Hpre].
    cbn [app]. rewrite scan_sources_source_meta.
    rewrite (absent_in_source_meta p Hp). apply IH. exact Hpre.
Qed.

(** X20.  When the direct lookup gives nothing, the first source of the
    run configuration that has the key decides, top-level key before
    nested key: its value is stored when it is truthy, and when it is not,
    nothing is stored even if a later source holds a usable value. *)
Theorem before_agent_source_order (inv : InvocationContext) (w : World)
  (pre post : list (list (string * pyval))) (source : list (string * pyval))
  (v : pyval) :
  direct_session_meta inv = PNone ->
  possible_sources inv = pre ++ source :: post ->
  forallb absent_in pre = true ->
  source_meta source = Some v ->
  before_agent (mkCallbackContext (Some inv)) w
  = (Ok tt,
     if py_truthy v
     then mkWorld (<["session_metadata" := v]> (state w)) (slept w)
     else w).
Proof.
  intros Hdirect Hsources Hpre Hsrc.
  rewrite before_agent_run. cbn [_invocation_context].
  assert (Hfind : find_session_meta inv = v).
  { unfold find_session_meta. rewrite Hdirect. cbn [is_None].
    rewrite Hsources. apply scan_sources_first; assumption. }
  rewrite Hfind. reflexivity.
Qed.

Lemma before_agent_source_order_witness :
  before_agent
    (mkCallbackContext
       (Some (mkInvocationContext (Some (PDict [("locale", PStr "en")]))
                (Some (mkRunConfig
                         (Some (PDict [("debug", PBool true)]))
                         (Some (PDict [("inputs",
                                        PDict [("sessionMetadata", PStr "nested")])]))
                         (Ok (PDict [("sessionMetadata", PStr "dumped")]))))
                (Raise OtherError))))
    fresh_world
  = (Ok tt, mkWorld {[ "session_metadata" := PStr "nested" ]} [])
  /\ before_agent
       (mkCallbackContext
          (Some (mkInvocationContext None
                   (Some (mkRunConfig None
                            (Some (PDict [("sessionMetadata", PList [])]))
                            (Ok (PDict [("sessionMetadata", PStr "dumped")]))))
                   (Ok PNone))))
       fresh_world
     = (Ok tt, fresh_world).
Proof.
  split.
  - apply (before_agent_source_order _ fresh_world
             [[("debug", PBool true)]]
             [[("sessionMetadata", PStr "dumped")]]
             [("inputs", PDict [("sessionMetadata", PStr "nested")])]
             (PStr "nested")); reflexivity.
  - apply (before_agent_source_order _ fresh_world
             []
             [[("sessionMetadata", PStr "dumped")]]
             [("sessionMetadata", PList [])]
             (PList [])); reflexivity.
Defined.

(** ** [lowercase_value], further *)

Lemma lower_char_not_upper (c : ascii) : is_upper (lower_char c) = false.
Proof.
  destruct c as [b0 b1 b2 b3 b4 b5 b6 b7].
  destruct b0, b1, b2, b3, b4, b5, b6, b7; vm_compute; reflexivity.
Qed.

Lemma lower_char_idem (c : ascii) : lower_char (lower_char c) = lower_char c.
Proof.
  destruct c as [b0 b1 b2 b3 b4 b5 b6 b7].
  destruct b0, b1, b2, b3, b4, b5, b6, b7; vm_compute; reflexivity.
Qed.

Lemma is_lowercase_lower (s : string) : is_lowercase (lower s) = true.
Proof.
  induction s as [| c s IH]; cbn; [reflexivity |].
  rewrite lower_char_not_upper, IH. reflexivity.
Qed.

Lemma lower_idem (s : string) : lower (lower s) = lower s.
Proof.
  induction s as [| c s IH]; cbn; [reflexivity |].
  rewrite lower_char_idem, IH. reflexivity.
Qed.

Lemma set_add_in (x y : pyval) (s : list pyval) :
  In y (set_add x s) -> In y s \/ y = x.
Proof.
  unfold set_add. destruct (existsb _ s); [auto |].
  intros H. apply in_app_or in H as [H | [H | []]]; auto.
Qed.

Lemma py_set_fold_in (y : pyval) (l acc : list pyval) :
  In y (fold_left (fun s x => set_add x s) l acc) -> In y acc \/ In y l.
Proof.
  revert acc. induction l as [| x l IH]; intros acc H; cbn in *; [auto |].
  destruct (IH _ H) as [Hacc | Hl]; [| auto].
  destruct (set_add_in x y acc Hacc) as [Ha | ->]; auto.
Qed.

Lemma py_set_in (y : pyval) (l : list pyval) : In y (py_set l) -> In y l.
Proof.
  intros H. destruct (py_set_fold_in y l [] H) as [[] | Hl]. exact Hl.
Qed.

Lemma dict_set_in {A : Type} (kv : string * A) (k : string) (v : A)
  (d : list (string * A)) :
  In kv (dict_set k v d) -> kv = (k, v) \/ In kv d.
Proof.
  induction d as [| [k' v'] d IH]; cbn.
  - intros [H | []]. left. congruence.
  - destruct (String.eqb k k').
    + intros [H | H]; [left; congruence | right; right; exact H].
    + intros [H | H]; [right; left; exact H |].
      destruct (IH H) as [Hkv | Hd]; [left; exact Hkv | right; right; exact Hd].
Qed.

Lemma py_dict_fold_in {A : Type} (kv : string * A)
  (pairs acc : list (string * A)) :
  In kv (fold_left (fun d p => dict_set (fst p) (snd p) d) pairs acc) ->
  In kv acc \/ In kv pairs.
Proof.
  revert acc. induction pairs as [| [k v] pairs IH]; intros acc H; cbn in *;
    [auto |].
  destruct (IH _ H) as [Hacc | Hp]; [| auto].
  destruct (dict_set_in kv k v acc Hacc) as [-> | Ha]; auto.
Qed.

Lemma py_dict_in {A : Type} (kv : string * A) (pairs : list (string * A)) :
  In kv (py_dict pairs) -> In kv pairs.
Proof.
  intros H. destruct (py_dict_fold_in kv pairs [] H) as [[] | Hp]. exact Hp.
Qed.

Lemma lowercase_strings_in (value : pyval) (s : string) :
  In s (string_values (lowercase_value value)) -> is_lowercase s = true.
Proof.
  revert s.
  induction value as [| b | n | q | s0 | l IH | l IH | l IH | d IH]
    using pyval_nested_ind; intros s; cbn [lowercase_value string_values];
    try (intros H; solve [destruct H]).
  - intros [<- | []]. apply is_lowercase_lower.
  - intros H. apply List.in_flat_map in H as (y & Hy & Hs).
    apply List.in_map_iff in Hy as (x & <- & Hx).
    rewrite List.Forall_forall in IH. exact (IH x Hx s Hs).
  - intros H. apply List.in_flat_map in H as (y & Hy & Hs).
    apply List.in_map_iff in Hy as (x & <- & Hx).
    rewrite List.Forall_forall in IH. exact (IH x Hx s Hs).
  - intros H. apply List.in_flat_map in H as (y & Hy & Hs).
    apply py_set_in in Hy.
    apply List.in_map_iff in Hy as (x & <- & Hx).
    rewrite List.Forall_forall in IH. exact (IH x Hx s Hs).
  - intros H. apply List.in_flat_map in H as (kv & Hkv & Hs).
    apply py_dict_in in Hkv.
    apply List.in_map_iff in Hkv as ([k x] & <- & Hx).
    rewrite List.Forall_forall in IH. exact (IH (k, x) Hx s Hs).
Qed.

(** X10.  In the result of [lowercase_value] no string value, at any
    depth, contains a capital ASCII letter. *)
Theorem lowercase_strings_lowercase (value : pyval) :
  Forall (fun s => is_lowercase s = true)
    (string_values (lowercase_value value)).
Proof.
  apply List.Forall_forall. intros s. apply lowercase_strings_in.
Qed.

Lemma uniq_from_snoc (seen a : list pyval) (x : pyval) :
  uniq_from seen (a ++ [x])
  = uniq_from seen a && negb (existsb (fun y => py_eq y x) (seen ++ a)).
Proof.
  revert seen. induction a as [| z a IH]; intros seen; cbn.
  - rewrite app_nil_r, andb_true_r. reflexivity.
  - rewrite IH, <- app_assoc, andb_assoc. reflexivity.
Qed.

Lemma set_add_uniq (x : pyval) (s : list pyval) :
  uniq_from [] s = true -> uniq_from [] (set_add x s) = true.
Proof.
  intros H. unfold set_add. destruct (existsb _ s) eqn:E; [exact H |].
  rewrite uniq_from_snoc, H. cbn [app]. rewrite E. reflexivity.
Qed.

Lemma py_set_fold_uniq (l acc : list pyval) :
  uniq_from [] acc = true ->
  uniq_from [] (fold_left (fun s x => set_add x s) l acc) = true.
Proof.
  revert acc. induction l as [| x l IH]; intros acc H; cbn; [exact H |].
  apply IH, set_add_uniq, H.
Qed.

Lemma py_set_uniq (l : list pyval) : uniq_from [] (py_set l) = true.
Proof. apply py_set_fold_uniq. reflexivity. Qed.

Lemma py_set_fold_id (s acc : list pyval) :
  uniq_from acc s = true ->
  fold_left (fun s x => set_add x s) s acc = acc ++ s.
Proof.
  revert acc. induction s as [| x s IH]; intros acc H; cbn in *.
  - symmetry. apply app_nil_r.
  - apply andb_true_iff in H as [Hx Hs]. apply negb_true_iff in Hx.
    unfold set_add at 2. rewrite Hx. rewrite (IH _ Hs), <- app_assoc.
    reflexivity.
Qed.

(** A list without equal elements is what [set] makes of it. *)
Lemma py_set_id (s : list pyval) : uniq_from [] s = true -> py_set s = s.
Proof. intros H. unfold py_set. apply (py_set_fold_id s [] H). Qed.

Lemma map_fixed {A : Type} (f : A -> A) (l : list A) :
  (forall x, In x l -> f x = x) -> map f l = l.
Proof.
  induction l as [| x l IH]; intros H; cbn; [reflexivity |].
  rewrite (H x (or_introl eq_refl)), IH; [reflexivity |].
  intros y Hy. apply H. right. exact Hy.
Qed.

Lemma forallb_In {A : Type} (f : A -> bool) (l : list A) (x : A) :
  forallb f l = true -> In x l -> f x = true.
Proof. intros H Hx. rewrite List.forallb_forall in H. exact (H x Hx). Qed.

Lemma lowercase_elements_fixed (l : list pyval) :
  Forall (fun x => well_formed x = true ->
                   lowercase_value (lowercase_value x) = lowercase_value x) l ->
  forallb well_formed l = true ->
  forall y, In y (map lowercase_value l) -> lowercase_value y = y.
Proof.
  intros IH Hwf y Hy. apply List.in_map_iff in Hy as (x & <- & Hx).
  rewrite List.Forall_forall in IH. apply (IH x Hx).
  exact (forallb_In well_formed l x Hwf Hx).
Qed.

(** X11.  Lowercasing is idempotent: a value that has been through
    [lowercase_value] comes out of a second pass unchanged. *)
Theorem lowercase_value_idempotent (value : pyval) :
  well_formed value = true ->
  lowercase_value (lowercase_value value) = lowercase_value value.
Proof.
  induction value as [| b | n | q | s | l IH | l IH | l IH | d IH]
    using pyval_nested_ind; intros Hwf; cbn [lowercase_value];
    try reflexivity; cbn [well_formed] in Hwf.
  - rewrite lower_idem. reflexivity.
  - f_equal. apply map_fixed. apply lowercase_elements_fixed; assumption.
  - f_equal. apply map_fixed. apply lowercase_elements_fixed; assumption.
  - f_equal. rewrite map_fixed.
    + apply py_set_id, py_set_uniq.
    + intros y Hy. apply py_set_in in Hy.
      revert y Hy. apply lowercase_elements_fixed; assumption.
  - apply andb_true_iff in Hwf as [Hkeys Hvals].
    rewrite (py_dict_distinct (map _ d))
      by (rewrite lowercase_items_keys; exact Hkeys).
    f_equal. rewrite map_fixed.
    + apply py_dict_distinct. rewrite lowercase_items_keys. exact Hkeys.
    + intros kv Hkv. apply List.in_map_iff in Hkv as ([k x] & <- & Hx).
      rewrite List.Forall_forall in IH. cbn. f_equal.
      apply (IH (k, x) Hx).
      exact (forallb_In (fun kv => well_formed (snd kv)) d (k, x) Hvals Hx).
Qed.

Lemma lowercase_value_idempotent_witness :
  lowercase_value (lowercase_value sample_args) = lowercase_value sample_args.
Proof. exact (lowercase_value_idempotent sample_args eq_refl). Defined.

Lemma set_add_length (x : pyval) (s : list pyval) :
  (length (set_add x s) <= S (length s))%nat.
Proof.
  unfold set_add. destruct (existsb _ s); [lia |].
  rewrite length_app. cbn. lia.
Qed.

Lemma py_set_fold_length (l acc : list pyval) :
  (length (fold_left (fun s x => set_add x s) l acc) <= length acc + length l)%nat.
Proof.
  revert acc. induction l as [| x l IH]; intros acc; cbn; [lia |].
  pose proof (IH (set_add x acc)). pose proof (set_add_length x acc). lia.
Qed.

Lemma set_add_keeps (x y : pyval) (s : list pyval) :
  In y s -> In y (set_add x s).
Proof.
  intros H. unfold set_add. destruct (existsb _ s); [exact H |].
  apply in_or_app. left. exact H.
Qed.

Lemma py_set_fold_keeps (y : pyval) (l acc : list pyval) :
  In y acc -> In y (fold_left (fun s x => set_add x s) l acc).
Proof.
  revert acc. induction l as [| x l IH]; intros acc H; cbn; [exact H |].
  apply IH, set_add_keeps, H.
Qed.

Lemma py_set_fold_covers (x : pyval) (l acc : list pyval) :
  In x l ->
  exists y, In y (fold_left (fun s x => set_add x s) l acc)
            /\ (y = x \/ py_eq y x = true).
Proof.
  revert acc. induction l as [| z l IH]; intros acc; [intros [] |].
  intros [-> | Hx]; cbn [fold_left].
  - unfold set_add at 2. destruct (existsb (fun y => py_eq y x) acc) eqn:E.
    + apply List.existsb_exists in E as (y & Hy & Heq).
      exists y. split; [apply py_set_fold_keeps; exact Hy | right; exact Heq].
    + exists x. split; [| left; reflexivity].
      apply py_set_fold_keeps, in_or_app. right. left. reflexivity.
  - apply IH. exact Hx.
Qed.

(** X12.  The lowercased form of a set is a set of the lowercased
    elements: it has no two equal elements and no more elements than the
    input, each of its elements is the lowercased form of an input element,
    and each input element has its lowercased form, or a value equal to it,
    in the result. *)
Theorem lowercase_set_elements (l : list pyval) :
  exists r,
    lowercase_value (PSet l) = PSet r
    /\ uniq_from [] r = true
    /\ (length r <= length l)%nat
    /\ (forall y, In y r -> exists x, In x l /\ y = lowercase_value x)
    /\ (forall x, In x l ->
          exists y, In y r
                    /\ (y = lowercase_value x
                        \/ py_eq y (lowercase_value x) = true)).
Proof.
  exists (py_set (map lowercase_value l)). split; [reflexivity |].
  split; [apply py_set_uniq |]. split; [| split].
  - pose proof (py_set_fold_length (map lowercase_value l) []) as H.
    rewrite length_map in H. exact H.
  - intros y Hy. apply py_set_in in Hy.
    apply List.in_map_iff in Hy as (x & <- & Hx). eauto.
  - intros x Hx. apply py_set_fold_covers. apply List.in_map. exact Hx.
Qed.
